(** * Social Network API (backend/main.py): model and verified properties

    The program is a FastAPI service over one SQLite file.  The model has
    three layers, each following the source:

    - the values that cross the boundary between Python and SQLite
      (decoded JSON bodies, bound parameters, column affinities);
    - the store: three tables kept in rowid order, the two AUTOINCREMENT
      counters, and a connection with its uncommitted view;
    - [init_db], [get_db] and the five request handlers, written in a small
      state-and-exception monad over the connection.

    Two things the source leaves to its environment are inputs of the model:
    the clock read by [CURRENT_TIMESTAMP], and the configuration of the
    SQLite library (whether foreign keys are enforced, and which texts it
    takes for integers when a column has INTEGER affinity). *)

From Stdlib Require Import ZArith Lia Permutation.
From stdpp Require Import base gmap strings list pretty sorting.

Set Warnings "-register-all".
Local Open Scope string_scope.
Local Open Scope Z_scope.

(** ** Python side *)

(** A decoded JSON value.  JSON numbers are integers here: numbers with a
    fraction (Python floats) are outside the model.

    A Python [str] is kept as the bytes of its UTF-8 encoding.  A [str] can
    hold a lone surrogate, a code point from U+D800 to U+DFFF ([json.loads]
    lets the escape "\ud800" through), for which UTF-8 has no encoding; the
    model keeps it as the three bytes 237, 160..191, 128..191 that the
    encoding scheme would give it, a sequence no UTF-8 text contains. *)
Inductive pyval : Type :=
| PyNone
| PyBool (b : bool)
| PyInt (n : Z)
| PyStr (s : string)
| PyList (items : list pyval)
| PyDict (items : list (string * pyval)).

(** The request body of a POST route: FastAPI hands the handler a [dict]
    (a body that is not a JSON object is answered 422 before the handler
    runs and never reaches this model). *)
Abbreviation dict := (gmap string pyval).

(** The exceptions the handlers can meet.  [BindingError] is the
    [sqlite3] error for a parameter of unsupported type, [OverflowError]
    Python's for an integer beyond 64 bits, [UnicodeEncodeError] Python's
    for a [str] that UTF-8 cannot encode, [IntegrityError] the [sqlite3]
    error for a violated constraint; [HTTPException] is FastAPI's. *)
Inductive exn : Type :=
| KeyError (key : string)
| TypeError
| OverflowError
| UnicodeEncodeError
| BindingError (index : nat)
| IntegrityError (msg : string)
| HTTPException (status_code : Z) (detail : string).

Inductive result (A : Type) : Type :=
| Return (a : A)
| Raise (e : exn).
Arguments Return {A} a.
Arguments Raise {A} e.

(** [d[key]] and [d.get(key, default)]. *)
Definition getitem (d : dict) (key : string) : result pyval :=
  match d !! key with
  | Some v => Return v
  | None => Raise (KeyError key)
  end.

Definition dict_get (d : dict) (key : string) (default : pyval) : pyval :=
  match d !! key with
  | Some v => v
  | None => default
  end.

(** What the client sees: FastAPI turns an [HTTPException] into a response
    with its status code, and any other exception into a 500. *)
Definition http_status {A} (r : result A) : Z :=
  match r with
  | Return _ => 200
  | Raise (HTTPException code _) => code
  | Raise _ => 500
  end.

(** ** SQLite side *)

(** Storage classes that occur (no REAL without floats, no BLOB from JSON). *)
Inductive sqlval : Type :=
| SqlNull
| SqlInt (n : Z)
| SqlText (s : string).

Definition int64_min : Z := -9223372036854775808.
Definition int64_max : Z := 9223372036854775807.

(** Whether a [str] holds a lone surrogate: the byte 237 followed by a byte
    from 160 to 191. *)
Fixpoint has_lone_surrogate (s : string) : bool :=
  match s with
  | String c rest =>
      match rest with
      | String c' _ =>
          (Ascii.N_of_ascii c =? 237)%N &&
            ((160 <=? Ascii.N_of_ascii c')%N && (Ascii.N_of_ascii c' <=? 191)%N)
          || has_lone_surrogate rest
      | EmptyString => false
      end
  | EmptyString => false
  end.

(** Binding one Python value to a [?] of a statement.  A [str] is passed to
    SQLite as UTF-8, and encoding it raises when it holds a lone
    surrogate. *)
Definition bind_param (index : nat) (v : pyval) : result sqlval :=
  match v with
  | PyNone => Return SqlNull
  | PyBool b => Return (SqlInt (if b then 1 else 0))
  | PyInt n =>
      if bool_decide (int64_min ≤ n ≤ int64_max) then Return (SqlInt n)
      else Raise OverflowError
  | PyStr s =>
      if has_lone_surrogate s then Raise UnicodeEncodeError
      else Return (SqlText s)
  | PyList _ | PyDict _ => Raise (BindingError index)
  end.

(** Library configuration.  [foreign_keys] is the [PRAGMA foreign_keys]
    default of the SQLite build (the program never sets the pragma).
    [numeric_text s] is [Some n] when SQLite reads the text [s] as the
    integer [n] on storing it in a column of INTEGER affinity. *)
Record sqlite_config : Type := {
  foreign_keys : bool;
  numeric_text : string → option Z
}.

(** A column of TEXT affinity ([VARCHAR(n)], [TEXT]) stores NULL or text;
    an integer is stored as its decimal text.  The declared length is not
    enforced by SQLite.  [None] is NULL. *)
Definition text_affinity (v : sqlval) : option string :=
  match v with
  | SqlNull => None
  | SqlInt n => Some (pretty n)
  | SqlText s => Some s
  end.

(** A column of INTEGER affinity stores a text as an integer when the text
    denotes one, and as it is otherwise.  (A text denoting a number with a
    fraction is stored as REAL by SQLite; the model keeps the text.  No
    query of this program tells the two apart: such a value never equals a
    user id.) *)
Definition integer_affinity (cfg : sqlite_config) (v : sqlval) : sqlval :=
  match v with
  | SqlText s =>
      match numeric_text cfg s with
      | Some n => SqlInt n
      | None => SqlText s
      end
  | _ => v
  end.

(** *** Rows and tables

    [created_at] holds [CURRENT_TIMESTAMP], the text
    ['YYYY-MM-DD HH:MM:SS'] in UTC, which SQLite compares bytewise; the
    model keeps the number of seconds it denotes, which has the same order.
    Its resolution is one second. *)
Definition timestamp : Type := Z.

Record user_row : Type := {
  u_id : Z;
  u_username : string;          (* VARCHAR(50) NOT NULL UNIQUE *)
  u_role : option string;       (* VARCHAR(20) DEFAULT 'user' *)
  u_created_at : timestamp
}.

Record post_row : Type := {
  p_id : Z;
  p_title : string;             (* VARCHAR(100) NOT NULL *)
  p_body : string;              (* TEXT NOT NULL *)
  p_user_id : sqlval;           (* INTEGER NOT NULL, REFERENCES users(id) *)
  p_created_at : timestamp
}.

Record follow_row : Type := {
  f_following_user_id : Z;
  f_followed_user_id : Z;
  f_created_at : timestamp
}.

(** The file [social_network.db]: each table in rowid order, and the
    [sqlite_sequence] entries of the two AUTOINCREMENT tables.  Row ids are
    64-bit in SQLite; the model does not bound the counters. *)
Record database : Type := {
  users : list user_row;
  posts : list post_row;
  follows : list follow_row;
  seq_users : Z;
  seq_posts : Z
}.

Definition empty_database : database :=
  {| users := []; posts := []; follows := []; seq_users := 0; seq_posts := 0 |}.

#[global] Instance sqlval_eq_dec : EqDecision sqlval.
Proof. solve_decision. Defined.
#[global] Instance user_row_eq_dec : EqDecision user_row.
Proof. solve_decision. Defined.
#[global] Instance post_row_eq_dec : EqDecision post_row.
Proof. solve_decision. Defined.
#[global] Instance follow_row_eq_dec : EqDecision follow_row.
Proof. solve_decision. Defined.

(** *** Connections

    A connection sees the committed file ([disk]) and its own view with the
    writes of the open transaction ([txn]).  [commit] publishes the view;
    [close] (and losing the connection to an exception) drops it. *)
Record connection : Type := {
  disk : database;
  txn : database
}.

Definition connect (db : database) : connection := {| disk := db; txn := db |}.

(** Statements run against a connection and may raise. *)
Definition db_op (A : Type) : Type := connection → result A * connection.

Definition ret {A} (a : A) : db_op A := λ conn, (Return a, conn).

Definition raise {A} (e : exn) : db_op A := λ conn, (Raise e, conn).

Definition lift {A} (r : result A) : db_op A := λ conn, (r, conn).

Definition bind {A B} (m : db_op A) (k : A → db_op B) : db_op B :=
  λ conn,
    match m conn with
    | (Return a, conn') => k a conn'
    | (Raise e, conn') => (Raise e, conn')
    end.

Notation "x <- m ;; k" := (bind m (λ x, k))
  (at level 20, m at level 99, k at level 200, only parsing).

Definition commit : db_op unit :=
  λ conn, (Return tt, {| disk := txn conn; txn := txn conn |}).

Definition close : db_op unit :=
  λ conn, (Return tt, {| disk := disk conn; txn := disk conn |}).

Definition read {A} (q : database → A) : db_op A :=
  λ conn, (Return (q (txn conn)), conn).

Definition write (f : database → database) : db_op unit :=
  λ conn, (Return tt, {| disk := disk conn; txn := f (txn conn) |}).

(** *** Statements *)

(** The rowid AUTOINCREMENT gives a new row: one more than the largest
    rowid the table ever held. *)
Definition next_rowid (seq : Z) (ids : list Z) : Z :=
  foldr Z.max seq ids + 1.

Definition add_user (row : user_row) (db : database) : database :=
  {| users := users db ++ [row]; posts := posts db; follows := follows db;
     seq_users := u_id row; seq_posts := seq_posts db |}.

Definition add_post (row : post_row) (db : database) : database :=
  {| users := users db; posts := posts db ++ [row]; follows := follows db;
     seq_users := seq_users db; seq_posts := p_id row |}.

Definition add_follow (row : follow_row) (db : database) : database :=
  {| users := users db; posts := posts db; follows := follows db ++ [row];
     seq_users := seq_users db; seq_posts := seq_posts db |}.

(** [INSERT INTO users (username, role) VALUES (?, ?)]; the result is the
    cursor's [lastrowid].  A failed statement changes nothing. *)
Definition insert_user (username role : sqlval) (now : timestamp) : db_op Z :=
  db <- read id;;
  match text_affinity username with
  | None => raise (IntegrityError "NOT NULL constraint failed: users.username")
  | Some name =>
      if bool_decide (name ∈ u_username <$> users db)
      then raise (IntegrityError "UNIQUE constraint failed: users.username")
      else
        let rowid := next_rowid (seq_users db) (u_id <$> users db) in
        _ <- write (add_user {| u_id := rowid; u_username := name;
                               u_role := text_affinity role;
                               u_created_at := now |});;
        ret rowid
  end.

(** [INSERT INTO posts (title, body, user_id) VALUES (?, ?, ?)].  The
    foreign key is checked only when the library enforces foreign keys. *)
Definition insert_post (cfg : sqlite_config) (title body user_id : sqlval)
    (now : timestamp) : db_op Z :=
  db <- read id;;
  match text_affinity title, text_affinity body, integer_affinity cfg user_id with
  | None, _, _ => raise (IntegrityError "NOT NULL constraint failed: posts.title")
  | Some _, None, _ => raise (IntegrityError "NOT NULL constraint failed: posts.body")
  | Some _, Some _, SqlNull =>
      raise (IntegrityError "NOT NULL constraint failed: posts.user_id")
  | Some t, Some b, uid =>
      if foreign_keys cfg && negb (bool_decide (uid ∈ SqlInt <$> (u_id <$> users db)))
      then raise (IntegrityError "FOREIGN KEY constraint failed")
      else
        let rowid := next_rowid (seq_posts db) (p_id <$> posts db) in
        _ <- write (add_post {| p_id := rowid; p_title := t; p_body := b;
                               p_user_id := uid; p_created_at := now |});;
        ret rowid
  end.

(** [INSERT INTO follows (following_user_id, followed_user_id) VALUES (a, b)]
    with integer literals, as the seed script has it. *)
Definition insert_follow (cfg : sqlite_config) (following followed : Z)
    (now : timestamp) : db_op unit :=
  db <- read id;;
  if bool_decide ((following, followed) ∈
       (λ f, (f_following_user_id f, f_followed_user_id f)) <$> follows db)
  then raise (IntegrityError
         "UNIQUE constraint failed: follows.following_user_id, follows.followed_user_id")
  else if foreign_keys cfg &&
          negb (bool_decide (following ∈ u_id <$> users db) &&
                bool_decide (followed ∈ u_id <$> users db))
  then raise (IntegrityError "FOREIGN KEY constraint failed")
  else write (add_follow {| f_following_user_id := following;
                            f_followed_user_id := followed;
                            f_created_at := now |}).

(** [ORDER BY key DESC] over rows scanned in rowid order.  SQL leaves the
    order of rows with equal keys open; SQLite's sorter returns them in scan
    order, and so does this insertion sort. *)
Fixpoint insert_desc {A} (key : A → Z) (x : A) (sorted : list A) : list A :=
  match sorted with
  | [] => [x]
  | y :: rest =>
      if bool_decide (key x < key y) then y :: insert_desc key x rest
      else x :: sorted
  end.

Definition order_by_desc {A} (key : A → Z) (rows : list A) : list A :=
  foldr (insert_desc key) [] rows.

(** A row of [SELECT p.*, u.username FROM posts p JOIN users u ON
    p.user_id = u.id]. *)
Record post_view : Type := {
  pv_id : Z;
  pv_title : string;
  pv_body : string;
  pv_user_id : sqlval;
  pv_created_at : timestamp;
  pv_username : string
}.

#[global] Instance post_view_eq_dec : EqDecision post_view.
Proof. solve_decision. Defined.

Definition flatten (p : post_row) (u : user_row) : post_view :=
  {| pv_id := p_id p; pv_title := p_title p; pv_body := p_body p;
     pv_user_id := p_user_id p; pv_created_at := p_created_at p;
     pv_username := u_username u |}.

(** The inner join: one row for each pair of a post and a user whose id
    the post's [user_id] equals; a post without such a user gives none. *)
Definition owners (db : database) (p : post_row) : list user_row :=
  filter (λ u, p_user_id p = SqlInt (u_id u)) (users db).

Definition posts_join_users (db : database) : list post_view :=
  p ← posts db; flatten p <$> owners db p.

(** The four SELECT statements of the handlers. *)
Definition select_users (db : database) : list user_row :=
  order_by_desc u_created_at (users db).

Definition select_user_by_id (rowid : Z) (db : database) : option user_row :=
  head (filter (λ u, u_id u = rowid) (users db)).

Definition select_posts (db : database) : list post_view :=
  order_by_desc pv_created_at (posts_join_users db).

Definition select_post_by_id (rowid : Z) (db : database) : option post_view :=
  head (filter (λ v, pv_id v = rowid) (posts_join_users db)).

(** [cur.execute(sql, params)] binds the parameters in order, then runs the
    statement. *)
Definition execute_insert_user (username role : pyval) (now : timestamp) : db_op Z :=
  u <- lift (bind_param 0 username);;
  r <- lift (bind_param 1 role);;
  insert_user u r now.

Definition execute_insert_post (cfg : sqlite_config) (title body user_id : pyval)
    (now : timestamp) : db_op Z :=
  t <- lift (bind_param 0 title);;
  b <- lift (bind_param 1 body);;
  u <- lift (bind_param 2 user_id);;
  insert_post cfg t b u now.

(** [dict(cur.fetchone())]: [fetchone] gives [None] when no row matched,
    and [dict(None)] raises [TypeError]. *)
Definition dict_of_row {A} (row : option A) : result A :=
  match row with
  | Some r => Return r
  | None => Raise TypeError
  end.

(** [try: body except sqlite3.IntegrityError: handler]. *)
Definition is_IntegrityError (e : exn) : bool :=
  match e with
  | IntegrityError _ => true
  | _ => false
  end.

Definition try_except_IntegrityError {A} (body handler : db_op A) : db_op A :=
  λ conn,
    match body conn with
    | (Raise e, conn') =>
        if is_IntegrityError e then handler conn' else (Raise e, conn')
    | done => done
    end.

(** ** The program *)

(** *** [init_db]

    The file system is the file [social_network.db], absent or present.
    [executescript] runs the statements one after the other in autocommit
    mode, so what a statement wrote stays written even if a later one
    fails; each INSERT reads the clock once for all its rows. *)
Definition seed_script (cfg : sqlite_config) (t_users t_posts t_follows : timestamp)
    : db_op unit :=
  _ <- insert_user (SqlText "juan_dev") (SqlText "user") t_users;;
  _ <- insert_user (SqlText "maria_admin") (SqlText "admin") t_users;;
  _ <- insert_user (SqlText "carlos_student") (SqlText "user") t_users;;
  _ <- insert_post cfg (SqlText "Mi primer post")
         (SqlText "Hola mundo desde la API con SQLite!") (SqlInt 1) t_posts;;
  _ <- insert_post cfg (SqlText "Segundo post")
         (SqlText "Este proyecto está genial") (SqlInt 2) t_posts;;
  _ <- insert_post cfg (SqlText "Aprendiendo FastAPI")
         (SqlText "Es más fácil de lo que pensé") (SqlInt 3) t_posts;;
  _ <- insert_follow cfg 1 2 t_follows;;
  _ <- insert_follow cfg 1 3 t_follows;;
  insert_follow cfg 2 3 t_follows.

Definition executescript (script : db_op unit) : db_op unit :=
  λ conn,
    let '(r, conn') := script conn in
    (r, {| disk := txn conn'; txn := txn conn' |}).

Definition init_db (cfg : sqlite_config) (t_users t_posts t_follows : timestamp)
    (file : option database) : result unit * option database :=
  match file with
  | Some db => (Return tt, Some db)
  | None =>
      let conn := connect empty_database in
      let '(r, conn') :=
        (_ <- executescript (seed_script cfg t_users t_posts t_follows);;
         _ <- commit;;
         close) conn in
      (r, Some (disk conn'))
  end.

(** *** Request handlers

    A handler takes the committed file to its answer and the committed file
    it leaves behind.  Each opens its own connection. *)
Definition handler (A : Type) : Type := database → result A * database.

Definition get_db (db : database) : connection := connect db.

Definition finish {A} (outcome : result A * connection) : result A * database :=
  (outcome.1, disk outcome.2).

Definition get_users : handler (list user_row) :=
  λ db,
    let conn := get_db db in
    finish
      ((users <- read select_users;;
        _ <- close;;
        ret users) conn).

(** The [try] block of [create_user], and its [except] clause. *)
Definition create_user_try (user_data : dict) (now : timestamp) : db_op user_row :=
  username <- lift (getitem user_data "username");;
  user_id <- execute_insert_user username
               (dict_get user_data "role" (PyStr "user")) now;;
  _ <- commit;;
  row <- read (select_user_by_id user_id);;
  user <- lift (dict_of_row row);;
  _ <- close;;
  ret user.

Definition create_user_except : db_op user_row :=
  _ <- close;;
  raise (HTTPException 400 "Username already exists").

Definition create_user (user_data : dict) (now : timestamp) : handler user_row :=
  λ db,
    let conn := get_db db in
    finish
      (try_except_IntegrityError (create_user_try user_data now)
         create_user_except conn).

Definition get_posts : handler (list post_view) :=
  λ db,
    let conn := get_db db in
    finish
      ((posts <- read select_posts;;
        _ <- close;;
        ret posts) conn).

Definition create_post (cfg : sqlite_config) (post_data : dict) (now : timestamp)
    : handler post_view :=
  λ db,
    let conn := get_db db in
    finish
      ((title <- lift (getitem post_data "title");;
        body <- lift (getitem post_data "body");;
        user_id <- lift (getitem post_data "user_id");;
        post_id <- execute_insert_post cfg title body user_id now;;
        _ <- commit;;
        row <- read (select_post_by_id post_id);;
        post <- lift (dict_of_row row);;
        _ <- close;;
        ret post) conn).

Definition home : handler (string * string) :=
  λ db, (Return ("Social Network API is running!", "ok"), db).

(** *** The service as a whole *)

Inductive request : Type :=
| GET_users
| POST_users (user_data : dict)
| GET_posts
| POST_posts (post_data : dict)
| GET_root.

Inductive reply : Type :=
| UserList (rows : list user_row)
| User (row : user_row)
| PostList (rows : list post_view)
| Post (row : post_view)
| Status (message status : string).

Definition reply_with {A} (wrap : A → reply) (outcome : result A * database)
    : result reply * database :=
  match outcome with
  | (Return a, db) => (Return (wrap a), db)
  | (Raise e, db) => (Raise e, db)
  end.

(** One request, served at clock reading [now]. *)
Definition handle (cfg : sqlite_config) (req : request) (now : timestamp)
    : handler reply :=
  λ db,
    match req with
    | GET_users => reply_with UserList (get_users db)
    | POST_users user_data => reply_with User (create_user user_data now db)
    | GET_posts => reply_with PostList (get_posts db)
    | POST_posts post_data => reply_with Post (create_post cfg post_data now db)
    | GET_root => reply_with (λ m, Status m.1 m.2) (home db)
    end.

(** A sequence of requests, each with its clock reading. *)
Definition serve (cfg : sqlite_config) (reqs : list (request * timestamp))
    (db : database) : database :=
  foldl (λ db rt, (handle cfg rt.1 rt.2 db).2) db reqs.

(** The stores the service can be in: freshly seeded, or one request later
    than such a store. *)
Inductive reachable (cfg : sqlite_config) : database → Prop :=
| reachable_init t_users t_posts t_follows db :
    init_db cfg t_users t_posts t_follows None = (Return tt, Some db) →
    reachable cfg db
| reachable_step req now db :
    reachable cfg db →
    reachable cfg (handle cfg req now db).2.

(** ** Vocabulary of the properties *)

(** A [str] that UTF-8 can encode. *)
Definition utf8_text (s : string) : Prop := has_lone_surrogate s = false.

(** Request bodies of the shape the routes document, with values SQLite
    can hold: [{"username": str, "role"?: str}] and
    [{"title": str, "body": str, "user_id": int}], each string one that
    UTF-8 can encode, the integer within 64 bits. *)
Definition role_declared (user_data : dict) : Prop :=
  user_data !! "role" = None ∨
  ∃ r, user_data !! "role" = Some (PyStr r) ∧ utf8_text r.

Definition user_request (user_data : dict) (name : string) : Prop :=
  user_data !! "username" = Some (PyStr name) ∧ utf8_text name ∧
  role_declared user_data.

Definition post_request (post_data : dict) (title body : string) (uid : Z) : Prop :=
  post_data !! "title" = Some (PyStr title) ∧ utf8_text title ∧
  post_data !! "body" = Some (PyStr body) ∧ utf8_text body ∧
  post_data !! "user_id" = Some (PyInt uid) ∧
  int64_min ≤ uid ≤ int64_max.

(** The role a documented body asks for. *)
Definition requested_role (user_data : dict) : option string :=
  match dict_get user_data "role" (PyStr "user") with
  | PyStr r => Some r
  | _ => None
  end.

(** A request that lacks a key its handler subscripts. *)
Definition missing_required_key (req : request) : Prop :=
  match req with
  | POST_users user_data => user_data !! "username" = None
  | POST_posts post_data =>
      post_data !! "title" = None ∨ post_data !! "body" = None ∨
      post_data !! "user_id" = None
  | _ => False
  end.

(** What the schema promises of a store the program wrote: ids are the
    positive numbers the counters handed out, each once, and usernames are
    unique. *)
Record store_ok (db : database) : Prop := {
  ok_user_ids : NoDup (u_id <$> users db);
  ok_usernames : NoDup (u_username <$> users db);
  ok_user_seq : Forall (λ u, 0 < u_id u ≤ seq_users db) (users db);
  ok_seq_users : 0 ≤ seq_users db;
  ok_post_ids : NoDup (p_id <$> posts db);
  ok_post_seq : Forall (λ p, 0 < p_id p ≤ seq_posts db) (posts db);
  ok_seq_posts : 0 ≤ seq_posts db
}.

(** The rows the two INSERT statements of the handlers add. *)
Definition new_user_row (db : database) (name : string) (role : option string)
    (now : timestamp) : user_row :=
  {| u_id := next_rowid (seq_users db) (u_id <$> users db);
     u_username := name; u_role := role; u_created_at := now |}.

Definition new_post_row (db : database) (title body : string) (user_id : sqlval)
    (now : timestamp) : post_row :=
  {| p_id := next_rowid (seq_posts db) (p_id <$> posts db);
     p_title := title; p_body := body; p_user_id := user_id;
     p_created_at := now |}.

(** [x] comes before [y] in a listing. *)
Definition listed_before {A} (x y : A) (listing : list A) : Prop :=
  ∃ i j : nat, (i < j)%nat ∧ listing !! i = Some x ∧ listing !! j = Some y.

(** A listing in descending order of [key]: no row is followed, anywhere
    later, by a row with a larger key. *)
Definition descending {A} (key : A → Z) (listing : list A) : Prop :=
  StronglySorted (λ x y, key y ≤ key x) listing.

(** The store right after [init_db] created it, as the script spells it. *)
Definition seed_users (t : timestamp) : list user_row :=
  [ {| u_id := 1; u_username := "juan_dev"; u_role := Some "user"; u_created_at := t |};
    {| u_id := 2; u_username := "maria_admin"; u_role := Some "admin"; u_created_at := t |};
    {| u_id := 3; u_username := "carlos_student"; u_role := Some "user"; u_created_at := t |} ].

Definition seed_posts (t : timestamp) : list post_row :=
  [ {| p_id := 1; p_title := "Mi primer post";
       p_body := "Hola mundo desde la API con SQLite!";
       p_user_id := SqlInt 1; p_created_at := t |};
    {| p_id := 2; p_title := "Segundo post";
       p_body := "Este proyecto está genial";
       p_user_id := SqlInt 2; p_created_at := t |};
    {| p_id := 3; p_title := "Aprendiendo FastAPI";
       p_body := "Es más fácil de lo que pensé";
       p_user_id := SqlInt 3; p_created_at := t |} ].

Definition seed_follows (t : timestamp) : list follow_row :=
  [ {| f_following_user_id := 1; f_followed_user_id := 2; f_created_at := t |};
    {| f_following_user_id := 1; f_followed_user_id := 3; f_created_at := t |};
    {| f_following_user_id := 2; f_followed_user_id := 3; f_created_at := t |} ].

Definition seeded (t_users t_posts t_follows : timestamp) : database :=
  {| users := seed_users t_users; posts := seed_posts t_posts;
     follows := seed_follows t_follows; seq_users := 3; seq_posts := 3 |}.

(** Concrete inputs for the examples below. *)
Definition sqlite_default : sqlite_config :=
  {| foreign_keys := false; numeric_text := λ _, None |}.

Definition sqlite_strict : sqlite_config :=
  {| foreign_keys := true; numeric_text := λ _, None |}.

Definition fresh_store : database := seeded 100 100 100.

(** The [str] of the JSON text "\ud800": one lone surrogate. *)
Definition lone_surrogate : string :=
  String (Ascii.ascii_of_N 237) (String (Ascii.ascii_of_N 160) (String (Ascii.ascii_of_N 128) "")).

(** Ids handed out one after the other from 1: the list [1; 2; ...; n]. *)
Definition consecutive_from_one (ids : list Z) : Prop :=
  ids = seqZ 1 (Z.of_nat (length ids)).

(** The counters and the ids of a store whose rows all came from the
    AUTOINCREMENT counters, with no row ever removed. *)
Definition ids_in_sequence (db : database) : Prop :=
  consecutive_from_one (u_id <$> users db) ∧
  seq_users db = Z.of_nat (length (users db)) ∧
  consecutive_from_one (p_id <$> posts db) ∧
  seq_posts db = Z.of_nat (length (posts db)).

(** Referential integrity of posts: each [user_id] is the id of a user row. *)
Definition posts_have_owners (db : database) : Prop :=
  Forall (λ p, ∃ u, u ∈ users db ∧ p_user_id p = SqlInt (u_id u)) (posts db).

(** The exceptions that leave [create_user], and those that leave
    [create_post]. *)
Definition binding_error (e : exn) : Prop :=
  e = OverflowError ∨ e = UnicodeEncodeError ∨ ∃ i, e = BindingError i.

Definition create_user_error (e : exn) : Prop :=
  e = KeyError "username" ∨ binding_error e ∨
  e = HTTPException 400 "Username already exists".

Definition create_post_error (e : exn) : Prop :=
  (∃ key, e = KeyError key ∧ key ∈ ["title"; "body"; "user_id"]) ∨
  binding_error e ∨ (∃ msg, e = IntegrityError msg) ∨ e = TypeError.

(** ** The monad and the statements *)

Section Statements.
Implicit Types (conn : connection) (db : database).

Lemma next_rowid_above_seq seq ids : seq < next_rowid seq ids.
Proof.
  unfold next_rowid. induction ids as [|i ids IH]; simpl; lia.
Qed.

Lemma next_rowid_above_ids seq ids i : i ∈ ids → i < next_rowid seq ids.
Proof.
  unfold next_rowid. induction 1 as [|i j ids _ IH]; simpl in *; lia.
Qed.

Lemma next_rowid_fresh seq ids : next_rowid seq ids ∉ ids.
Proof. intros Hin. apply (next_rowid_above_ids seq) in Hin. lia. Qed.

Lemma insert_user_null role now conn :
  insert_user SqlNull role now conn =
    (Raise (IntegrityError "NOT NULL constraint failed: users.username"), conn).
Proof. reflexivity. Qed.

Lemma insert_user_taken username role now conn name :
  text_affinity username = Some name →
  name ∈ u_username <$> users (txn conn) →
  insert_user username role now conn =
    (Raise (IntegrityError "UNIQUE constraint failed: users.username"), conn).
Proof.
  intros Hname Hin. unfold insert_user, bind, read; simpl.
  rewrite Hname. by rewrite bool_decide_eq_true_2.
Qed.

Lemma insert_user_fresh username role now conn name :
  text_affinity username = Some name →
  name ∉ u_username <$> users (txn conn) →
  let rowid := next_rowid (seq_users (txn conn)) (u_id <$> users (txn conn)) in
  insert_user username role now conn =
    (Return rowid,
     {| disk := disk conn;
        txn := add_user {| u_id := rowid; u_username := name;
                           u_role := text_affinity role;
                           u_created_at := now |} (txn conn) |}).
Proof.
  intros Hname Hin. unfold insert_user, bind, read; simpl.
  rewrite Hname. by rewrite bool_decide_eq_false_2.
Qed.

Lemma filter_none {A} (P : A → Prop) `{!∀ x, Decision (P x)} (l : list A) :
  (∀ x, x ∈ l → ¬ P x) → filter P l = [].
Proof.
  induction l as [|x l IH]; intros Hall; [done|].
  rewrite filter_cons_False by (apply Hall; left).
  apply IH. intros y Hy. apply Hall. by right.
Qed.

Lemma select_user_by_id_added db row :
  u_id row ∉ u_id <$> users db →
  select_user_by_id (u_id row) (add_user row db) = Some row.
Proof.
  intros Hfresh. unfold select_user_by_id, add_user; simpl.
  rewrite filter_app, filter_none.
  - simpl. by rewrite filter_cons_True.
  - intros u Hu Heq. apply Hfresh.
    rewrite <- Heq. by apply list_elem_of_fmap_2.
Qed.
End Statements.

(** ** [create_user], case by case *)

Section CreateUser.
Implicit Types (db : database) (user_data : dict).

Lemma create_user_missing user_data now db :
  user_data !! "username" = None →
  create_user user_data now db = (Raise (KeyError "username"), db).
Proof.
  intros Hkey.
  unfold create_user, finish, try_except_IntegrityError, create_user_try,
    bind, lift, getitem.
  by rewrite Hkey.
Qed.

Lemma execute_insert_user_bound username role now su sr conn :
  bind_param 0 username = Return su →
  bind_param 1 role = Return sr →
  execute_insert_user username role now conn = insert_user su sr now conn.
Proof.
  intros Hu Hr. unfold execute_insert_user, bind, lift. by rewrite Hu, Hr.
Qed.

Lemma insert_user_raise su sr now conn e conn' :
  insert_user su sr now conn = (Raise e, conn') →
  conn' = conn ∧ is_IntegrityError e = true.
Proof.
  unfold insert_user, bind, read, write, ret, raise; simpl.
  destruct (text_affinity su); [case_bool_decide|]; intros; by simplify_eq.
Qed.

Lemma execute_insert_user_raise username role now conn e conn' :
  execute_insert_user username role now conn = (Raise e, conn') →
  conn' = conn.
Proof.
  unfold execute_insert_user, bind, lift.
  destruct (bind_param 0 username); [|intros; by simplify_eq].
  destruct (bind_param 1 role); [|intros; by simplify_eq].
  intros H. by apply insert_user_raise in H as [-> _].
Qed.

Lemma create_user_try_integrity user_data now db msg conn' :
  create_user_try user_data now (get_db db) = (Raise (IntegrityError msg), conn') →
  create_user user_data now db =
    (Raise (HTTPException 400 "Username already exists"), db).
Proof.
  intros Htry.
  unfold create_user, finish, try_except_IntegrityError. rewrite Htry. simpl.
  f_equal. revert Htry.
  unfold create_user_try, bind, lift, getitem.
  destruct (user_data !! "username") as [v|]; [|intros; by simplify_eq].
  destruct (execute_insert_user _ _ _ _) as [[rowid|e] conn1] eqn:Hins.
  - unfold commit, read, dict_of_row, close, ret; simpl.
    destruct (select_user_by_id _ _); intros; by simplify_eq.
  - apply execute_insert_user_raise in Hins as ->. intros; by simplify_eq.
Qed.

Lemma create_user_rejected user_data now db v su sr msg :
  user_data !! "username" = Some v →
  bind_param 0 v = Return su →
  bind_param 1 (dict_get user_data "role" (PyStr "user")) = Return sr →
  insert_user su sr now (get_db db) = (Raise (IntegrityError msg), get_db db) →
  create_user_try user_data now (get_db db) =
    (Raise (IntegrityError msg), get_db db) ∧
  create_user user_data now db =
    (Raise (HTTPException 400 "Username already exists"), db).
Proof.
  intros Hkey Hu Hr Hins.
  assert (create_user_try user_data now (get_db db) =
            (Raise (IntegrityError msg), get_db db)) as Htry.
  { unfold create_user_try, bind, lift, getitem. rewrite Hkey.
    rewrite (execute_insert_user_bound _ _ _ su sr) by done.
    by rewrite Hins. }
  split; [done|]. by eapply create_user_try_integrity.
Qed.

Lemma create_user_taken user_data now db v su sr name :
  user_data !! "username" = Some v →
  bind_param 0 v = Return su →
  bind_param 1 (dict_get user_data "role" (PyStr "user")) = Return sr →
  text_affinity su = Some name →
  name ∈ u_username <$> users db →
  create_user user_data now db =
    (Raise (HTTPException 400 "Username already exists"), db).
Proof.
  intros Hkey Hu Hr Hname Hin.
  eapply create_user_rejected; [done..|].
  by apply insert_user_taken with name.
Qed.

Lemma create_user_fresh user_data now db v su sr name :
  user_data !! "username" = Some v →
  bind_param 0 v = Return su →
  bind_param 1 (dict_get user_data "role" (PyStr "user")) = Return sr →
  text_affinity su = Some name →
  name ∉ u_username <$> users db →
  let row := new_user_row db name (text_affinity sr) now in
  create_user user_data now db = (Return row, add_user row db).
Proof.
  intros Hkey Hu Hr Hname Hfresh row.
  unfold create_user, finish, try_except_IntegrityError, create_user_try,
    bind, lift, getitem.
  rewrite Hkey. rewrite (execute_insert_user_bound _ _ _ su sr) by done.
  rewrite (insert_user_fresh _ _ _ _ name) by done.
  unfold commit, read, dict_of_row, close, ret; simpl.
  fold (new_user_row db name (text_affinity sr) now). fold row.
  replace (next_rowid (seq_users db) (u_id <$> users db)) with (u_id row) by done.
  rewrite select_user_by_id_added; [done|].
  apply next_rowid_fresh.
Qed.

Lemma bind_param_text index s :
  utf8_text s → bind_param index (PyStr s) = Return (SqlText s).
Proof. unfold utf8_text. simpl. by intros ->. Qed.

Lemma bind_param_raise index v e :
  bind_param index v = Raise e → is_IntegrityError e = false.
Proof.
  destruct v; simpl; try case_bool_decide; try destruct (has_lone_surrogate _);
    intros; by simplify_eq.
Qed.

(** Whatever the request, [create_user] either raises and leaves the store
    as it was, or returns the row it added under a new username. *)
Lemma create_user_cases user_data now db :
  (∃ e, create_user user_data now db = (Raise e, db)) ∨
  (∃ name role,
    (name ∉ u_username <$> users db) ∧
    create_user user_data now db =
      (Return (new_user_row db name role now),
       add_user (new_user_row db name role now) db)).
Proof.
  destruct (user_data !! "username") as [v|] eqn:Hkey;
    [|left; eexists; by apply create_user_missing].
  destruct (bind_param 0 v) as [su|e] eqn:Hu.
  2:{ left. exists e.
      unfold create_user, finish, try_except_IntegrityError,
        create_user_try, bind, lift, getitem, execute_insert_user.
      rewrite Hkey, Hu. simpl. by rewrite (bind_param_raise _ _ _ Hu). }
  destruct (bind_param 1 (dict_get user_data "role" (PyStr "user")))
    as [sr|e] eqn:Hr.
  2:{ left. exists e.
      unfold create_user, finish, try_except_IntegrityError,
        create_user_try, bind, lift, getitem, execute_insert_user.
      rewrite Hkey, Hu, Hr. simpl. by rewrite (bind_param_raise _ _ _ Hr). }
  destruct (text_affinity su) as [name|] eqn:Hname.
  - destruct (decide (name ∈ u_username <$> users db)) as [Hin|Hfresh].
    + left. eexists. by eapply create_user_taken.
    + right. exists name, (text_affinity sr). split; [done|].
      by eapply create_user_fresh.
  - left. destruct su; try discriminate. eexists.
    by destruct (create_user_rejected user_data now db v SqlNull sr _ Hkey Hu Hr
                   (insert_user_null _ _ _)) as [_ ->].
Qed.

Lemma create_user_store user_data now db :
  (create_user user_data now db).2 = db ∨
  ∃ name role,
    (name ∉ u_username <$> users db) ∧
    (create_user user_data now db).2 = add_user (new_user_row db name role now) db.
Proof.
  destruct (create_user_cases user_data now db)
    as [[e ->]|(name & role & Hfresh & ->)]; [by left|right; eauto].
Qed.

Lemma create_user_return user_data now db user db' :
  create_user user_data now db = (Return user, db') →
  ∃ name role,
    (name ∉ u_username <$> users db) ∧
    user = new_user_row db name role now ∧ db' = add_user user db.
Proof.
  destruct (create_user_cases user_data now db)
    as [[e ->]|(name & role & Hfresh & ->)]; [done|].
  intros [= <- <-]. eauto.
Qed.
End CreateUser.

(** ** [create_post], case by case *)

Section CreatePost.
Context (cfg : sqlite_config).
Implicit Types (db : database) (post_data : dict).

Lemma create_post_missing post_data now db :
  post_data !! "title" = None ∨ post_data !! "body" = None ∨
    post_data !! "user_id" = None →
  ∃ key, key ∈ ["title"; "body"; "user_id"] ∧ post_data !! key = None ∧
         create_post cfg post_data now db = (Raise (KeyError key), db).
Proof.
  intros Hmissing.
  unfold create_post, finish, bind, lift, getitem.
  destruct (post_data !! "title") eqn:Ht.
  2:{ exists "title". split_and!; [repeat constructor|done..]. }
  destruct (post_data !! "body") eqn:Hb.
  2:{ exists "body". split_and!; [repeat constructor|done..]. }
  destruct (post_data !! "user_id") eqn:Hu.
  2:{ exists "user_id". split_and!; [repeat constructor|done..]. }
  destruct Hmissing as [?|[?|?]]; discriminate.
Qed.

Lemma insert_post_raise title body user_id now conn e conn' :
  insert_post cfg title body user_id now conn = (Raise e, conn') →
  conn' = conn.
Proof.
  unfold insert_post, bind, read, write, ret, raise; simpl.
  repeat case_match; intros; by simplify_eq.
Qed.

Lemma insert_post_return title body user_id now conn rowid conn' :
  insert_post cfg title body user_id now conn = (Return rowid, conn') →
  ∃ t b uid,
    rowid = next_rowid (seq_posts (txn conn)) (p_id <$> posts (txn conn)) ∧
    conn' = {| disk := disk conn;
               txn := add_post (new_post_row (txn conn) t b uid now) (txn conn) |}.
Proof.
  unfold insert_post, bind, read, write, ret, raise; simpl.
  repeat case_match; intros; simplify_eq; eauto.
Qed.

Lemma execute_insert_post_bound title body user_id now st sb su conn :
  bind_param 0 title = Return st →
  bind_param 1 body = Return sb →
  bind_param 2 user_id = Return su →
  execute_insert_post cfg title body user_id now conn =
    insert_post cfg st sb su now conn.
Proof.
  intros Ht Hb Hu. unfold execute_insert_post, bind, lift.
  by rewrite Ht, Hb, Hu.
Qed.

Lemma execute_insert_post_raise title body user_id now conn e conn' :
  execute_insert_post cfg title body user_id now conn = (Raise e, conn') →
  conn' = conn.
Proof.
  unfold execute_insert_post, bind, lift.
  repeat (case_match; [|intros; by simplify_eq]).
  apply insert_post_raise.
Qed.

Lemma execute_insert_post_return title body user_id now conn rowid conn' :
  execute_insert_post cfg title body user_id now conn = (Return rowid, conn') →
  ∃ t b uid,
    rowid = next_rowid (seq_posts (txn conn)) (p_id <$> posts (txn conn)) ∧
    conn' = {| disk := disk conn;
               txn := add_post (new_post_row (txn conn) t b uid now) (txn conn) |}.
Proof.
  unfold execute_insert_post, bind, lift.
  repeat (case_match; [|intros; by simplify_eq]).
  apply insert_post_return.
Qed.

(** Whatever the request, [create_post] leaves the store as it was or
    with one more post row. *)
Lemma create_post_store post_data now db :
  (create_post cfg post_data now db).2 = db ∨
  ∃ t b uid,
    (create_post cfg post_data now db).2 = add_post (new_post_row db t b uid now) db.
Proof.
  unfold create_post, finish, bind, lift, getitem.
  destruct (post_data !! "title") as [title|]; [|by left].
  destruct (post_data !! "body") as [body|]; [|by left].
  destruct (post_data !! "user_id") as [user_id|]; [|by left].
  destruct (execute_insert_post _ _ _ _ _ _) as [[rowid|e] conn1] eqn:Hins.
  - apply execute_insert_post_return in Hins as (t & b & uid & -> & ->).
    right. exists t, b, uid.
    unfold commit, read, dict_of_row, close, ret; simpl.
    by destruct (select_post_by_id _ _).
  - apply execute_insert_post_raise in Hins as ->. by left.
Qed.

Lemma posts_join_users_add_post db row :
  posts_join_users (add_post row db) =
    (posts_join_users db ++ (flatten row <$> owners db row))%list.
Proof.
  unfold posts_join_users, add_post; simpl.
  rewrite bind_app, bind_singleton. done.
Qed.

Lemma posts_join_users_ids db v :
  v ∈ posts_join_users db → pv_id v ∈ p_id <$> posts db.
Proof.
  unfold posts_join_users. rewrite list_elem_of_bind.
  intros (p & Hv & Hp). apply list_elem_of_fmap in Hv as (u & -> & _).
  by apply (list_elem_of_fmap_2 p_id).
Qed.

Lemma select_post_by_id_added db row :
  p_id row ∉ p_id <$> posts db →
  select_post_by_id (p_id row) (add_post row db) =
    head (flatten row <$> owners db row).
Proof.
  intros Hfresh. unfold select_post_by_id.
  rewrite posts_join_users_add_post, filter_app, filter_none; simpl.
  - f_equal. induction (owners db row) as [|u us IH]; [done|].
    rewrite fmap_cons, filter_cons_True by done. by rewrite IH.
  - intros v Hv Heq. apply Hfresh. rewrite <- Heq.
    by apply posts_join_users_ids.
Qed.

Lemma owners_unique db p owner :
  NoDup (u_id <$> users db) →
  owner ∈ users db →
  p_user_id p = SqlInt (u_id owner) →
  owners db p = [owner].
Proof.
  unfold owners. intros Hnodup Hin Hp. rewrite Hp. clear Hp.
  induction (users db) as [|u us IH]; [by apply elem_of_nil in Hin|].
  rewrite fmap_cons in Hnodup. apply NoDup_cons in Hnodup as [Hu Hus].
  apply elem_of_cons in Hin as [->|Hin].
  - rewrite filter_cons_True by done. f_equal.
    apply filter_none. intros u' Hu' Heq. apply Hu.
    injection Heq as ->. by apply list_elem_of_fmap_2.
  - rewrite filter_cons_False; [by apply IH|].
    intros Heq. apply Hu. injection Heq as <-. by apply list_elem_of_fmap_2.
Qed.

Lemma owners_none db p uid :
  p_user_id p = SqlInt uid →
  uid ∉ u_id <$> users db →
  owners db p = [].
Proof.
  intros Hp Hnone. unfold owners. apply filter_none.
  intros u Hu Heq. apply Hnone. rewrite Hp in Heq. injection Heq as ->.
  by apply list_elem_of_fmap_2.
Qed.

(** The statement of a documented request, once the parameters are bound
    and stored under the columns' affinities. *)
Lemma insert_post_documented title body uid now conn :
  insert_post cfg (SqlText title) (SqlText body) (SqlInt uid) now conn =
    if foreign_keys cfg && negb (bool_decide (uid ∈ u_id <$> users (txn conn)))
    then (Raise (IntegrityError "FOREIGN KEY constraint failed"), conn)
    else
      let row := new_post_row (txn conn) title body (SqlInt uid) now in
      (Return (p_id row), {| disk := disk conn; txn := add_post row (txn conn) |}).
Proof.
  unfold insert_post, bind, read, write, ret, raise; simpl.
  replace (bool_decide (SqlInt uid ∈ SqlInt <$> (u_id <$> users (txn conn))))
    with (bool_decide (uid ∈ u_id <$> users (txn conn))).
  - by destruct (_ && _).
  - apply bool_decide_ext. split.
    + apply list_elem_of_fmap_2.
    + intros Hin. apply list_elem_of_fmap in Hin as (i & Heq & Hi).
      by injection Heq as ->.
Qed.

Lemma create_post_documented post_data now db title body uid :
  post_request post_data title body uid →
  create_post cfg post_data now db =
    if foreign_keys cfg && negb (bool_decide (uid ∈ u_id <$> users db))
    then (Raise (IntegrityError "FOREIGN KEY constraint failed"), db)
    else
      let row := new_post_row db title body (SqlInt uid) now in
      (dict_of_row (head (flatten row <$> owners db row)), add_post row db).
Proof.
  intros (Ht & Htext & Hb & Hbtext & Hu & Hrange).
  unfold create_post, finish, bind, lift, getitem.
  rewrite Ht, Hb, Hu.
  rewrite (execute_insert_post_bound _ _ _ _
             (SqlText title) (SqlText body) (SqlInt uid));
    [|by apply bind_param_text..|].
  2:{ simpl. by rewrite bool_decide_eq_true_2. }
  rewrite insert_post_documented. simpl.
  destruct (_ && _); [done|].
  unfold commit, read, dict_of_row, close, ret; simpl.
  change (next_rowid (seq_posts db) (p_id <$> posts db))
    with (p_id (new_post_row db title body (SqlInt uid) now)).
  rewrite select_post_by_id_added by apply next_rowid_fresh.
  by destruct (head _).
Qed.

Lemma create_post_return post_data now db view db' :
  create_post cfg post_data now db = (Return view, db') →
  ∃ t b u,
    let row := new_post_row db t b (SqlInt (u_id u)) now in
    u ∈ users db ∧ view = flatten row u ∧ db' = add_post row db.
Proof.
  unfold create_post, finish, bind, lift, getitem.
  destruct (post_data !! "title") as [title|]; [|done].
  destruct (post_data !! "body") as [body|]; [|done].
  destruct (post_data !! "user_id") as [user_id|]; [|done].
  destruct (execute_insert_post _ _ _ _ _ _) as [[rowid|e] conn1] eqn:Hins.
  2:{ apply execute_insert_post_raise in Hins as ->. done. }
  apply execute_insert_post_return in Hins as (t & b & uid & -> & ->).
  unfold commit, read, dict_of_row, close, ret; simpl.
  change (next_rowid (seq_posts db) (p_id <$> posts db))
    with (p_id (new_post_row db t b uid now)).
  rewrite select_post_by_id_added by apply next_rowid_fresh.
  destruct (owners db _) as [|u us] eqn:Howners; simpl; [done|].
  intros [= <- <-].
  assert (u ∈ owners db (new_post_row db t b uid now)) as Hu
    by (rewrite Howners; left).
  apply list_elem_of_filter in Hu as [Huid Hu]. simpl in Huid. subst uid.
  by exists t, b, u.
Qed.

Lemma posts_join_users_spec db view :
  view ∈ posts_join_users db ↔
  ∃ p u, p ∈ posts db ∧ u ∈ users db ∧ p_user_id p = SqlInt (u_id u) ∧
         view = flatten p u.
Proof.
  unfold posts_join_users, owners. rewrite list_elem_of_bind. split.
  - intros (p & Hview & Hp). apply list_elem_of_fmap in Hview as (u & -> & Hu).
    apply list_elem_of_filter in Hu as [Huid Hu]. by exists p, u.
  - intros (p & u & Hp & Hu & Huid & ->). exists p. split; [|done].
    apply list_elem_of_fmap_2. by apply list_elem_of_filter.
Qed.
End CreatePost.


(** ** The store across requests *)

Section Service.
Context (cfg : sqlite_config).
Implicit Types (db : database) (req : request).

Lemma get_users_eq db : get_users db = (Return (select_users db), db).
Proof. reflexivity. Qed.

Lemma get_posts_eq db : get_posts db = (Return (select_posts db), db).
Proof. reflexivity. Qed.

Lemma reply_with_store {A} (wrap : A → reply) (outcome : result A * database) :
  (reply_with wrap outcome).2 = outcome.2.
Proof. by destruct outcome as [[a|e] db]. Qed.

(** A request leaves the store alone, or adds one user row under a new
    username, or adds one post row. *)
Lemma handle_store req now db :
  (handle cfg req now db).2 = db ∨
  (∃ name role,
      (name ∉ u_username <$> users db) ∧
      (handle cfg req now db).2 = add_user (new_user_row db name role now) db) ∨
  (∃ t b uid,
      (handle cfg req now db).2 = add_post (new_post_row db t b uid now) db).
Proof.
  destruct req as [|user_data| |post_data|]; unfold handle;
    rewrite ?reply_with_store; try by left.
  - destruct (create_user_store user_data now db) as [?|(name & role & ? & ?)];
      [by left|right; left; eauto].
  - destruct (create_post_store cfg post_data now db) as [?|(t & b & uid & ?)];
      [by left|right; right; eauto].
Qed.

Lemma init_db_creates t_users t_posts t_follows :
  init_db cfg t_users t_posts t_follows None =
    (Return tt, Some (seeded t_users t_posts t_follows)).
Proof. destruct cfg as [[] numeric]; reflexivity. Qed.

Lemma store_ok_seeded t_users t_posts t_follows :
  store_ok (seeded t_users t_posts t_follows).
Proof.
  split; simpl; try lia.
  - apply (bool_decide_unpack _). by vm_compute.
  - apply (bool_decide_unpack _). by vm_compute.
  - repeat constructor; simpl; lia.
  - apply (bool_decide_unpack _). by vm_compute.
  - repeat constructor; simpl; lia.
Qed.

Lemma store_ok_add_user db name role now :
  store_ok db →
  name ∉ u_username <$> users db →
  store_ok (add_user (new_user_row db name role now) db).
Proof.
  intros [Hids Hnames Hseq Hpos Hpids Hpseq Hppos] Hfresh.
  pose proof (next_rowid_above_seq (seq_users db) (u_id <$> users db)) as Habove.
  split; simpl; try done.
  - rewrite fmap_app. apply NoDup_app. split_and!; [done| |apply NoDup_singleton].
    intros i Hi Hnew. apply list_elem_of_singleton in Hnew. subst i.
    by apply next_rowid_fresh in Hi.
  - rewrite fmap_app. apply NoDup_app. split_and!; [done| |apply NoDup_singleton].
    intros n Hn Hnew. apply list_elem_of_singleton in Hnew. by subst n.
  - apply Forall_app. split.
    + eapply Forall_impl; [exact Hseq|]. simpl. intros u Hu. lia.
    + constructor; [simpl; lia|constructor].
  - lia.
Qed.

Lemma store_ok_add_post db t b uid now :
  store_ok db →
  store_ok (add_post (new_post_row db t b uid now) db).
Proof.
  intros [Hids Hnames Hseq Hpos Hpids Hpseq Hppos].
  pose proof (next_rowid_above_seq (seq_posts db) (p_id <$> posts db)) as Habove.
  split; simpl; try done.
  - rewrite fmap_app. apply NoDup_app. split_and!; [done| |apply NoDup_singleton].
    intros i Hi Hnew. apply list_elem_of_singleton in Hnew. subst i.
    by apply next_rowid_fresh in Hi.
  - apply Forall_app. split.
    + eapply Forall_impl; [exact Hpseq|]. simpl. intros p Hp. lia.
    + constructor; [simpl; lia|constructor].
  - lia.
Qed.

Lemma handle_ok req now db : store_ok db → store_ok (handle cfg req now db).2.
Proof.
  intros Hok.
  destruct (handle_store req now db)
    as [->|[(name & role & Hfresh & ->)|(t & b & uid & ->)]];
    auto using store_ok_add_user, store_ok_add_post.
Qed.

Lemma reachable_ok db : reachable cfg db → store_ok db.
Proof.
  induction 1 as [t1 t2 t3 db Hinit|req now db _ IH].
  - rewrite init_db_creates in Hinit. injection Hinit as <-.
    apply store_ok_seeded.
  - by apply handle_ok.
Qed.

Lemma serve_ok reqs db : store_ok db → store_ok (serve cfg reqs db).
Proof.
  revert db. induction reqs as [|[req now] reqs IH]; intros db Hok; [done|].
  simpl. by apply IH, handle_ok.
Qed.

(** Rows are never removed or rewritten. *)
Lemma handle_users_kept req now db u :
  u ∈ users db → u ∈ users (handle cfg req now db).2.
Proof.
  intros Hu.
  destruct (handle_store req now db)
    as [->|[(name & role & Hfresh & ->)|(t & b & uid & ->)]]; simpl; [done| |done].
  apply elem_of_app. by left.
Qed.

Lemma serve_users_kept reqs db u :
  u ∈ users db → u ∈ users (serve cfg reqs db).
Proof.
  revert db. induction reqs as [|[req now] reqs IH]; intros db Hu; [done|].
  simpl. by apply IH, handle_users_kept.
Qed.

Lemma handle_posts_kept req now db p :
  p ∈ posts db → p ∈ posts (handle cfg req now db).2.
Proof.
  intros Hp.
  destruct (handle_store req now db)
    as [->|[(name & role & Hfresh & ->)|(t & b & uid & ->)]]; simpl; [done..|].
  apply elem_of_app. by left.
Qed.

Lemma handle_join_kept req now db view :
  view ∈ posts_join_users db → view ∈ posts_join_users (handle cfg req now db).2.
Proof.
  rewrite !posts_join_users_spec.
  intros (p & u & Hp & Hu & Huid & ->). exists p, u.
  split_and!; [by apply handle_posts_kept|by apply handle_users_kept|done..].
Qed.

Lemma handle_follows req now db :
  follows (handle cfg req now db).2 = follows db.
Proof.
  by destruct (handle_store req now db)
    as [->|[(name & role & Hfresh & ->)|(t & b & uid & ->)]].
Qed.
End Service.


(** ** [ORDER BY ... DESC] *)

Section OrderBy.
Context {A : Type} (key : A → Z).
Implicit Types (x y : A) (rows : list A).

Lemma insert_desc_perm x rows : insert_desc key x rows ≡ₚ x :: rows.
Proof.
  induction rows as [|y rows IH]; simpl; [done|].
  case_bool_decide; [|done].
  rewrite IH. apply Permutation_swap.
Qed.

Lemma order_by_desc_perm rows : order_by_desc key rows ≡ₚ rows.
Proof.
  induction rows as [|x rows IH]; simpl; [done|].
  by rewrite insert_desc_perm, IH.
Qed.

Lemma order_by_desc_elem_of x rows : x ∈ order_by_desc key rows ↔ x ∈ rows.
Proof. by rewrite order_by_desc_perm. Qed.

Lemma insert_desc_descending x rows :
  descending key rows → descending key (insert_desc key x rows).
Proof.
  unfold descending.
  induction rows as [|y rows IH]; simpl; intros Hsorted.
  - by repeat constructor.
  - apply StronglySorted_cons in Hsorted as [Hy Hrows].
    case_bool_decide as Hlt.
    + apply StronglySorted_cons. split; [|by apply IH].
      apply Forall_forall. intros z Hz.
      rewrite insert_desc_perm in Hz. apply elem_of_cons in Hz as [->|Hz]; [lia|].
      by eapply Forall_forall in Hy.
    + apply StronglySorted_cons. split.
      * constructor; [lia|]. eapply Forall_impl; [exact Hy|]. simpl. lia.
      * by apply StronglySorted_cons.
Qed.

Lemma order_by_desc_descending rows : descending key (order_by_desc key rows).
Proof.
  induction rows as [|x rows IH]; simpl; [constructor|].
  by apply insert_desc_descending.
Qed.

(** In a descending listing a row with a strictly larger key comes first. *)
Lemma descending_listed_before x y listing :
  descending key listing →
  x ∈ listing → y ∈ listing → key y < key x →
  listed_before x y listing.
Proof.
  intros Hsorted Hx Hy Hlt.
  apply list_elem_of_split in Hx as (l1 & l2 & ->).
  apply elem_of_app in Hy as [Hy|Hy].
  - eapply StronglySorted_app_1_elem_of in Hsorted; [|exact Hy|by left].
    simpl in Hsorted. lia.
  - apply elem_of_cons in Hy as [->|Hy]; [lia|].
    apply list_elem_of_lookup in Hy as [k Hk].
    exists (length l1), (length l1 + S k)%nat. split_and!; [lia| |].
    + by apply list_lookup_middle.
    + rewrite lookup_app_r by lia.
      by replace (length l1 + S k - length l1)%nat with (S k) by lia.
Qed.

Lemma order_by_desc_listed_before x y rows :
  x ∈ rows → y ∈ rows → key y < key x →
  listed_before x y (order_by_desc key rows).
Proof.
  intros Hx Hy Hlt.
  apply descending_listed_before; [apply order_by_desc_descending| | |done];
    by apply order_by_desc_elem_of.
Qed.
End OrderBy.


(** ** Documented requests *)

Section Documented.
Context (cfg : sqlite_config).
Implicit Types (db : database) (user_data post_data : dict).

Lemma role_declared_bound user_data :
  role_declared user_data →
  ∃ r, dict_get user_data "role" (PyStr "user") = PyStr r ∧
       utf8_text r ∧ requested_role user_data = Some r.
Proof.
  unfold requested_role, dict_get.
  intros [->|(r & -> & Hr)]; [exists "user"|exists r]; by split_and!.
Qed.

Lemma create_user_documented user_data name now db :
  user_request user_data name →
  create_user user_data now db =
    if decide (name ∈ u_username <$> users db)
    then (Raise (HTTPException 400 "Username already exists"), db)
    else
      let row := new_user_row db name (requested_role user_data) now in
      (Return row, add_user row db).
Proof.
  intros (Hname & Htext & Hrole).
  destruct (role_declared_bound _ Hrole) as (r & Hr & Hrtext & ->).
  case_decide.
  - eapply (create_user_taken _ _ _ _ (SqlText name) (SqlText r)); try done.
    + by apply bind_param_text.
    + rewrite Hr. by apply bind_param_text.
  - eapply (create_user_fresh _ _ _ _ (SqlText name) (SqlText r)); try done.
    + by apply bind_param_text.
    + rewrite Hr. by apply bind_param_text.
Qed.

Lemma create_user_documented_taken user_data name now db :
  user_request user_data name →
  name ∈ u_username <$> users (create_user user_data now db).2.
Proof.
  intros Hreq. rewrite (create_user_documented _ name) by done.
  case_decide; simpl; [done|].
  rewrite fmap_app. apply elem_of_app. right. by left.
Qed.

Lemma serve_usernames_kept reqs db name :
  name ∈ u_username <$> users db →
  name ∈ u_username <$> users (serve cfg reqs db).
Proof.
  intros Hin. apply list_elem_of_fmap in Hin as (u & -> & Hu).
  by apply list_elem_of_fmap_2, serve_users_kept.
Qed.

Lemma create_user_ok user_data now db :
  store_ok db → store_ok (create_user user_data now db).2.
Proof.
  intros Hok.
  destruct (create_user_store user_data now db) as [->|(n & r & ? & ->)];
    auto using store_ok_add_user.
Qed.

Lemma unique_key_once {A} (key : A → string) (rows : list A) (k : string) :
  NoDup (key <$> rows) → k ∈ key <$> rows →
  length (filter (λ row, key row = k) rows) = 1%nat.
Proof.
  induction rows as [|row rows IH]; simpl; intros Hnodup Hin.
  - by apply elem_of_nil in Hin.
  - apply NoDup_cons in Hnodup as [Hrow Hrows].
    destruct (decide (key row = k)) as [<-|Hne].
    + rewrite filter_cons_True by done. simpl. f_equal.
      rewrite filter_none; [done|].
      intros row' Hrow' Heq. apply Hrow. rewrite <- Heq.
      by apply list_elem_of_fmap_2.
    + rewrite filter_cons_False by done. apply IH; [done|].
      apply elem_of_cons in Hin as [?|?]; [congruence|done].
Qed.
End Documented.


(** ** Properties of the service *)

(** Checks [store_ok] of a concrete store by evaluation. *)
Ltac store_ok_by_evaluation :=
  split; simpl;
  first [ lia
        | apply (bool_decide_unpack _); vm_compute; exact I
        | repeat constructor; simpl; lia ].

(** C1, as the code has it.  Of two create-user requests with the same
    username, a string that UTF-8 can encode (and roles likewise), whatever
    is served between them, the second is answered HTTP 400 with detail
    "Username already exists" and leaves the store as it found it: the store
    holds one row with that username, not two. *)
Theorem duplicate_username_rejected (cfg : sqlite_config) (db : database)
    (first second : dict) (name : string) (t1 t2 : timestamp)
    (between : list (request * timestamp)) :
  store_ok db →
  user_request first name →
  user_request second name →
  let db1 := (create_user first t1 db).2 in
  let db2 := serve cfg between db1 in
  create_user second t2 db2 =
    (Raise (HTTPException 400 "Username already exists"), db2) ∧
  http_status (create_user second t2 db2).1 = 400 ∧
  length (filter (λ u, u_username u = name) (users db2)) = 1%nat.
Proof.
  intros Hok Hfirst Hsecond db1 db2.
  assert (name ∈ u_username <$> users db2) as Htaken.
  { apply serve_usernames_kept. by apply create_user_documented_taken. }
  assert (create_user second t2 db2 =
            (Raise (HTTPException 400 "Username already exists"), db2)) as Hsecond'.
  { rewrite (create_user_documented _ name) by done. by rewrite decide_True. }
  split_and!; [done|by rewrite Hsecond'|].
  apply unique_key_once; [|done].
  apply ok_usernames, serve_ok, create_user_ok, Hok.
Qed.

Lemma duplicate_username_rejected_witness :
  create_user {[ "username" := PyStr "new_guy" ]} 201
    (create_user {[ "username" := PyStr "new_guy" ]} 200 fresh_store).2 =
    (Raise (HTTPException 400 "Username already exists"),
     (create_user {[ "username" := PyStr "new_guy" ]} 200 fresh_store).2) ∧
  length (filter (λ u, u_username u = "new_guy")
            (users (create_user {[ "username" := PyStr "new_guy" ]} 200
                      fresh_store).2)) = 1%nat.
Proof.
  assert (store_ok fresh_store) as Hok by store_ok_by_evaluation.
  pose proof (duplicate_username_rejected sqlite_default fresh_store
                {[ "username" := PyStr "new_guy" ]}
                {[ "username" := PyStr "new_guy" ]} "new_guy" 200 201 []
                Hok) as H.
  assert (user_request {[ "username" := PyStr "new_guy" ]} "new_guy") as Hreq
    by (split_and!; [reflexivity|reflexivity|left; reflexivity]).
  destruct (H Hreq Hreq) as (H1 & _ & H3). split; [exact H1|exact H3].
Defined.

(** C1 as stated fails for a username that is a lone surrogate (the JSON
    text "\ud800"): binding it raises [UnicodeEncodeError] before the INSERT
    runs, so the first request stores nothing and the second, like the
    first, is answered 500, not 400. *)
Lemma duplicate_surrogate_username_counterexample :
  create_user {[ "username" := PyStr lone_surrogate ]} 200 fresh_store =
    (Raise UnicodeEncodeError, fresh_store) ∧
  create_user {[ "username" := PyStr lone_surrogate ]} 201
    (create_user {[ "username" := PyStr lone_surrogate ]} 200 fresh_store).2 =
    (Raise UnicodeEncodeError, fresh_store) ∧
  http_status
    (create_user {[ "username" := PyStr lone_surrogate ]} 201
       (create_user {[ "username" := PyStr lone_surrogate ]} 200 fresh_store).2).1
    = 500.
Proof. by vm_compute. Qed.

(** C2, as the code has it.  A create-user request whose username is a
    string that UTF-8 can encode (and its role, if any, likewise) and is not
    yet taken succeeds: the returned record carries the username and the
    role of the body (role "user" when the body has none), its id is
    positive and is the id of no user created before, and list-users, asked
    right away or after any further requests, includes the record. *)
Theorem create_user_unique_username (cfg : sqlite_config) (db : database)
    (user_data : dict) (name : string) (now : timestamp)
    (later : list (request * timestamp)) :
  store_ok db →
  user_request user_data name →
  name ∉ u_username <$> users db →
  ∃ user db',
    create_user user_data now db = (Return user, db') ∧
    u_username user = name ∧
    (∀ r, user_data !! "role" = Some (PyStr r) → u_role user = Some r) ∧
    (user_data !! "role" = None → u_role user = Some "user") ∧
    0 < u_id user ∧
    (u_id user ∉ u_id <$> users db) ∧
    seq_users db < u_id user ∧
    ∃ listing,
      get_users (serve cfg later db') = (Return listing, serve cfg later db') ∧
      user ∈ listing.
Proof.
  intros Hok Hreq Hfresh.
  exists (new_user_row db name (requested_role user_data) now).
  eexists. split.
  { rewrite (create_user_documented _ name) by done. by rewrite decide_False. }
  pose proof (next_rowid_above_seq (seq_users db) (u_id <$> users db)) as Habove.
  pose proof (ok_seq_users _ Hok) as Hseq.
  unfold requested_role, dict_get. simpl.
  split_and!; try done.
  - by intros r ->.
  - by intros ->.
  - lia.
  - apply next_rowid_fresh.
  - eexists. split; [apply get_users_eq|].
    apply order_by_desc_elem_of, serve_users_kept. simpl.
    apply elem_of_app. right. by left.
Qed.

Lemma create_user_unique_username_witness :
  ∃ user db',
    create_user {[ "username" := PyStr "new_guy" ]} 200 fresh_store =
      (Return user, db') ∧
    u_username user = "new_guy" ∧ u_role user = Some "user" ∧ u_id user = 4 ∧
    user ∈ select_users db'.
Proof.
  destruct (create_user_unique_username sqlite_default fresh_store
              {[ "username" := PyStr "new_guy" ]} "new_guy" 200 [])
    as (user & db' & Hcreate & Hname & _ & Hrole & _ & _ & _ & listing & Hlist & Hin).
  - store_ok_by_evaluation.
  - split_and!; [reflexivity|reflexivity|left; reflexivity].
  - apply (bool_decide_unpack _). by vm_compute.
  - exists user, db'. simpl in Hlist. rewrite get_users_eq in Hlist.
    injection Hlist as <-.
    split_and!; [done|done|by apply Hrole| |done].
    vm_compute in Hcreate. by injection Hcreate as <- <-.
Defined.

(** C2 as stated fails for a username that is a lone surrogate: no user has
    it, yet the request does not succeed.  Binding the value raises
    [UnicodeEncodeError], the answer is a 500, and no row is stored. *)
Lemma unused_surrogate_username_counterexample :
  (lone_surrogate ∉ u_username <$> users fresh_store) ∧
  create_user {[ "username" := PyStr lone_surrogate ]} 200 fresh_store =
    (Raise UnicodeEncodeError, fresh_store) ∧
  get_users fresh_store = (Return (seed_users 100), fresh_store).
Proof.
  split_and!; [|by vm_compute..].
  apply (bool_decide_unpack _). by vm_compute.
Qed.

(** C3.  At startup without a store file [init_db] creates the tables and
    inserts exactly the seed rows of the script: three users, three posts,
    three follow edges.  With a store file present it writes nothing, so a
    restart against the store it created leaves that store as it is. *)
Theorem init_db_seeds_once (cfg : sqlite_config)
    (t_users t_posts t_follows : timestamp) :
  init_db cfg t_users t_posts t_follows None =
    (Return tt,
     Some {| users := seed_users t_users; posts := seed_posts t_posts;
             follows := seed_follows t_follows;
             seq_users := 3; seq_posts := 3 |}) ∧
  (length (seed_users t_users) = 3 ∧ length (seed_posts t_posts) = 3 ∧
   length (seed_follows t_follows) = 3)%nat ∧
  (∀ db t1 t2 t3, init_db cfg t1 t2 t3 (Some db) = (Return tt, Some db)) ∧
  (∀ t1 t2 t3,
     init_db cfg t1 t2 t3 (init_db cfg t_users t_posts t_follows None).2 =
       init_db cfg t_users t_posts t_follows None).
Proof.
  split_and!; try done.
  - apply init_db_creates.
  - intros t1 t2 t3. by rewrite init_db_creates.
Qed.

(** C4, as the code has it.  List-users returns every user row, and
    list-posts every pair of a post and the user its [user_id] names,
    flattened (a post whose [user_id] names no user is not listed).  Both
    listings are in descending order of [created_at]; so of two records
    created one after the other, the later is listed first when the clock
    read a later second for it.  Nothing is promised of records created
    within the same second. *)
Theorem listings_by_created_at_desc (cfg : sqlite_config) (db : database) :
  (∃ listing,
     get_users db = (Return listing, db) ∧
     listing ≡ₚ users db ∧
     descending u_created_at listing) ∧
  (∃ listing,
     get_posts db = (Return listing, db) ∧
     (∀ view, view ∈ listing ↔
        ∃ p u, p ∈ posts db ∧ u ∈ users db ∧
               p_user_id p = SqlInt (u_id u) ∧ view = flatten p u) ∧
     descending pv_created_at listing) ∧
  (∀ first second tA tB a b db1 db2,
     create_user first tA db = (Return a, db1) →
     create_user second tB db1 = (Return b, db2) →
     tA < tB →
     ∃ listing, get_users db2 = (Return listing, db2) ∧ listed_before b a listing) ∧
  (∀ first second tA tB a b db1 db2,
     create_post cfg first tA db = (Return a, db1) →
     create_post cfg second tB db1 = (Return b, db2) →
     tA < tB →
     ∃ listing, get_posts db2 = (Return listing, db2) ∧ listed_before b a listing).
Proof.
  split_and!.
  - exists (select_users db). split_and!; [done| |].
    + apply order_by_desc_perm.
    + apply order_by_desc_descending.
  - exists (select_posts db). split_and!; [done| |].
    + intros view. unfold select_posts.
      by rewrite order_by_desc_elem_of, posts_join_users_spec.
    + apply order_by_desc_descending.
  - intros first second tA tB a b db1 db2 Ha Hb Hlt.
    apply create_user_return in Ha as (na & ra & _ & -> & ->).
    apply create_user_return in Hb as (nb & rb & _ & -> & ->).
    eexists. split; [apply get_users_eq|].
    apply order_by_desc_listed_before; simpl; [| |done].
    + apply elem_of_app. right. by left.
    + apply elem_of_app. left. apply elem_of_app. right. by left.
  - intros first second tA tB a b db1 db2 Ha Hb Hlt.
    apply create_post_return in Ha as (ta & ba & ua & Hua & -> & ->).
    apply create_post_return in Hb as (tb & bb & ub & Hub & -> & ->).
    eexists. split; [apply get_posts_eq|].
    apply order_by_desc_listed_before; simpl; [| |done].
    + apply posts_join_users_spec.
      eexists _, ub. split_and!; [|exact Hub| |reflexivity]; [|done].
      simpl. apply elem_of_app. right. by left.
    + apply posts_join_users_spec.
      eexists _, ua. split_and!; [|exact Hua| |reflexivity]; [|done].
      simpl. apply elem_of_app. left. apply elem_of_app. right. by left.
Qed.

Lemma listings_by_created_at_desc_witness :
  ∃ a b listing,
    (create_user {[ "username" := PyStr "b" ]} 201
       (create_user {[ "username" := PyStr "a" ]} 200 fresh_store).2).1 = Return b ∧
    (create_user {[ "username" := PyStr "a" ]} 200 fresh_store).1 = Return a ∧
    listed_before b a listing.
Proof.
  destruct (listings_by_created_at_desc sqlite_default fresh_store)
    as (_ & _ & Husers & _).
  destruct (create_user {[ "username" := PyStr "a" ]} 200 fresh_store)
    as [ra db1] eqn:Ha.
  destruct (create_user {[ "username" := PyStr "b" ]} 201 db1) as [rb db2] eqn:Hb.
  vm_compute in Ha. injection Ha as <- <-.
  vm_compute in Hb. injection Hb as <- <-.
  edestruct (Husers {[ "username" := PyStr "a" ]} {[ "username" := PyStr "b" ]}
               200 201) as (listing & _ & Hbefore).
  - by vm_compute.
  - by vm_compute.
  - lia.
  - eexists _, _, listing. split_and!; [reflexivity|reflexivity|exact Hbefore].
Defined.

(** C4 as stated fails twice over.  Two users created within the same
    second have equal [created_at], and the listing gives them in insertion
    order, the earlier first.  And when foreign keys are not enforced, a post
    whose [user_id] names no user is stored but list-posts leaves it out. *)
Lemma listing_order_same_second_counterexample :
  let a := {| u_id := 4; u_username := "a"; u_role := Some "user";
              u_created_at := 200 |} in
  let b := {| u_id := 5; u_username := "b"; u_role := Some "user";
              u_created_at := 200 |} in
  let db1 := add_user a fresh_store in
  let db2 := add_user b db1 in
  let orphan : dict :=
    <[ "title" := PyStr "t" ]> (<[ "body" := PyStr "b" ]>
      {[ "user_id" := PyInt 9 ]}) in
  let db3 := (create_post sqlite_default orphan 300 fresh_store).2 in
  (create_user {[ "username" := PyStr "a" ]} 200 fresh_store = (Return a, db1) ∧
   create_user {[ "username" := PyStr "b" ]} 200 db1 = (Return b, db2) ∧
   get_users db2 = (Return (a :: b :: seed_users 100), db2) ∧
   ¬ listed_before b a (a :: b :: seed_users 100)) ∧
  (posts db3 =
     (seed_posts 100 ++
        [ {| p_id := 4; p_title := "t"; p_body := "b"; p_user_id := SqlInt 9;
             p_created_at := 300 |} ])%list ∧
   ∃ listing, get_posts db3 = (Return listing, db3) ∧ length listing = 3%nat).
Proof.
  intros a b db1 db2 orphan db3.
  split; [split_and!|split]; try by vm_compute.
  - intros (i & j & Hlt & Hi & Hj).
    destruct j as [|j]; [lia|].
    do 5 (destruct j as [|j]; [by simplify_eq/=|]). done.
  - eexists. split; [apply get_posts_eq|]. by vm_compute.
Qed.

(** C5, as the code has it.  A create-post request with a title and a
    body that UTF-8 can encode and the id of an existing user adds one post
    row and returns that row flattened with a username, and the username is
    that of the one user whose id the request gave. *)
Theorem create_post_existing_user (cfg : sqlite_config) (db : database)
    (post_data : dict) (title body : string) (uid : Z) (owner : user_row)
    (now : timestamp) :
  store_ok db →
  post_request post_data title body uid →
  owner ∈ users db →
  u_id owner = uid →
  let row := new_post_row db title body (SqlInt uid) now in
  create_post cfg post_data now db = (Return (flatten row owner), add_post row db) ∧
  posts (add_post row db) = (posts db ++ [row])%list ∧
  users (add_post row db) = users db ∧
  (p_id row ∉ p_id <$> posts db) ∧
  pv_username (flatten row owner) = u_username owner ∧
  (∀ u, u ∈ users db → u_id u = uid → u = owner).
Proof.
  intros Hok Hreq Howner Huid row.
  assert (owners db row = [owner]) as Howners.
  { apply owners_unique; [apply Hok|done|]. simpl. by rewrite Huid. }
  split_and!; try done.
  - rewrite (create_post_documented _ _ _ _ title body uid) by done.
    rewrite bool_decide_eq_true_2, andb_false_r.
    + cbv zeta. fold row. by rewrite Howners.
    + rewrite <- Huid. by apply list_elem_of_fmap_2.
  - apply next_rowid_fresh.
  - intros u Hu Hu'.
    assert (u ∈ owners db row) as Hin.
    { apply list_elem_of_filter. split; [|done]. simpl. by rewrite Hu'. }
    rewrite Howners in Hin. by apply list_elem_of_singleton in Hin.
Qed.

Lemma create_post_existing_user_witness :
  (create_post sqlite_strict
     (<[ "title" := PyStr "t" ]> (<[ "body" := PyStr "b" ]>
        {[ "user_id" := PyInt 2 ]})) 300 fresh_store).1 =
    Return {| pv_id := 4; pv_title := "t"; pv_body := "b";
              pv_user_id := SqlInt 2; pv_created_at := 300;
              pv_username := "maria_admin" |}.
Proof.
  destruct (create_post_existing_user sqlite_strict fresh_store
              (<[ "title" := PyStr "t" ]> (<[ "body" := PyStr "b" ]>
                 {[ "user_id" := PyInt 2 ]})) "t" "b" 2
              {| u_id := 2; u_username := "maria_admin"; u_role := Some "admin";
                 u_created_at := 100 |} 300) as (Hcreate & _).
  - store_ok_by_evaluation.
  - split_and!; try reflexivity; by vm_compute.
  - right. left.
  - reflexivity.
  - by rewrite Hcreate.
Defined.

(** C5 as stated fails for a title that is a lone surrogate (the JSON text
    "\ud800"), whichever the foreign-key setting: the user exists, yet
    binding the title raises [UnicodeEncodeError], the answer is a 500, and
    no post row is stored. *)
Lemma surrogate_title_counterexample :
  let post_data : dict :=
    <[ "title" := PyStr lone_surrogate ]> (<[ "body" := PyStr "b" ]>
      {[ "user_id" := PyInt 2 ]}) in
  (2 ∈ u_id <$> users fresh_store) ∧
  create_post sqlite_default post_data 300 fresh_store =
    (Raise UnicodeEncodeError, fresh_store) ∧
  create_post sqlite_strict post_data 300 fresh_store =
    (Raise UnicodeEncodeError, fresh_store).
Proof.
  intros post_data. split_and!; [|by vm_compute..].
  apply (bool_decide_unpack _). by vm_compute.
Qed.

(** C6.  A create-user request without "username", and a create-post
    request without "title", "body" or "user_id", raises [KeyError] for the
    missing key.  It is answered as a server error, not with a 400, the
    [except] clause of create-user does not catch it, and the store is
    left as it was. *)
Theorem missing_key_is_server_error (cfg : sqlite_config) (req : request)
    (now : timestamp) (db : database) :
  missing_required_key req →
  ∃ key,
    handle cfg req now db = (Raise (KeyError key), db) ∧
    http_status (handle cfg req now db).1 = 500 ∧
    (∀ user_data, req = POST_users user_data →
       key = "username" ∧
       create_user user_data now db = (Raise (KeyError "username"), db)).
Proof.
  destruct req as [|user_data| |post_data|]; intros Hkey; try done;
    unfold handle.
  - exists "username". simpl in Hkey.
    rewrite create_user_missing by done. split_and!; try done.
    intros d [= <-]. by rewrite create_user_missing.
  - destruct (create_post_missing cfg post_data now db Hkey) as (key & _ & _ & ->).
    by exists key.
Qed.

Lemma missing_key_is_server_error_witness :
  ∃ key,
    handle sqlite_default (POST_users {[ "role" := PyStr "admin" ]}) 200 fresh_store =
      (Raise (KeyError key), fresh_store) ∧
    http_status
      (handle sqlite_default (POST_users {[ "role" := PyStr "admin" ]}) 200
         fresh_store).1 = 500.
Proof.
  destruct (missing_key_is_server_error sqlite_default
              (POST_users {[ "role" := PyStr "admin" ]}) 200 fresh_store)
    as (key & Hhandle & Hstatus & _).
  - reflexivity.
  - by exists key.
Defined.

(** C7, as the code has it.  Every user row has a username (the column is
    never NULL), and no two user rows have the same username: this holds of
    the store [init_db] creates, and every request preserves it.  (SQLite's
    NOT NULL admits the empty username.) *)
Theorem usernames_unique_invariant (cfg : sqlite_config) :
  (∀ t_users t_posts t_follows db,
     init_db cfg t_users t_posts t_follows None = (Return tt, Some db) →
     NoDup (u_username <$> users db)) ∧
  (∀ req now db,
     NoDup (u_username <$> users db) →
     NoDup (u_username <$> users (handle cfg req now db).2)) ∧
  (∀ db, reachable cfg db → NoDup (u_username <$> users db)).
Proof.
  assert (∀ req now db,
            NoDup (u_username <$> users db) →
            NoDup (u_username <$> users (handle cfg req now db).2)) as Hstep.
  { intros req now db Hnodup.
    destruct (handle_store cfg req now db)
      as [->|[(name & role & Hfresh & ->)|(t & b & uid & ->)]]; simpl; [done| |done].
    rewrite fmap_app. apply NoDup_app. split_and!; [done| |apply NoDup_singleton].
    intros n Hn Hnew. apply list_elem_of_singleton in Hnew. by subst n. }
  split_and!; [|done|].
  - intros t1 t2 t3 db Hinit. rewrite init_db_creates in Hinit.
    injection Hinit as <-. apply store_ok_seeded.
  - intros db Hreach. by apply ok_usernames, (reachable_ok cfg).
Qed.

Lemma usernames_unique_invariant_witness :
  NoDup (u_username <$> users fresh_store) ∧
  NoDup (u_username <$>
           users (handle sqlite_default
                    (POST_users {[ "username" := PyStr "new_guy" ]}) 200
                    fresh_store).2).
Proof.
  destruct (usernames_unique_invariant sqlite_default) as (Hinit & Hstep & _).
  assert (NoDup (u_username <$> users fresh_store)) as Hfresh.
  { apply (Hinit 100 100 100). reflexivity. }
  split; [exact Hfresh|]. apply Hstep, Hfresh.
Defined.

(** C7 as stated fails: on the freshly seeded store a create-user request
    with the empty username succeeds, and the store then holds a user row
    whose username is empty. *)
Lemma empty_username_counterexample :
  let row := {| u_id := 4; u_username := ""; u_role := Some "user";
                u_created_at := 200 |} in
  init_db sqlite_default 100 100 100 None = (Return tt, Some fresh_store) ∧
  create_user {[ "username" := PyStr "" ]} 200 fresh_store =
    (Return row, add_user row fresh_store) ∧
  row ∈ users (add_user row fresh_store) ∧
  u_username row = "".
Proof.
  intros row. split_and!; try reflexivity.
  simpl. do 3 right. left.
Qed.

(** C8, as the code has it.  A create-post request with a title and a body
    that UTF-8 can encode, whose [user_id] is the id of no user, meets no
    check in the handler; the store's foreign key alone decides.  With
    foreign keys enforced the INSERT is rejected and nothing is written.
    Without, the post row is committed, and the request still fails: the
    re-read joins no user, and the handler raises on the missing row. *)
Theorem create_post_unknown_user (cfg : sqlite_config) (db : database)
    (post_data : dict) (title body : string) (uid : Z) (now : timestamp) :
  post_request post_data title body uid →
  uid ∉ u_id <$> users db →
  let row := new_post_row db title body (SqlInt uid) now in
  (foreign_keys cfg = true →
     create_post cfg post_data now db =
       (Raise (IntegrityError "FOREIGN KEY constraint failed"), db)) ∧
  (foreign_keys cfg = false →
     create_post cfg post_data now db = (Raise TypeError, add_post row db) ∧
     posts (add_post row db) = (posts db ++ [row])%list ∧
     p_user_id row = SqlInt uid ∧
     http_status (create_post cfg post_data now db).1 = 500).
Proof.
  intros Hreq Hnone row.
  pose proof (create_post_documented cfg post_data now db title body uid Hreq)
    as Hcreate.
  rewrite bool_decide_eq_false_2 in Hcreate by done.
  split; intros Hfk; rewrite Hfk in Hcreate; simpl in Hcreate.
  - done.
  - fold row in Hcreate.
    rewrite (owners_none db row uid) in Hcreate by done.
    rewrite Hcreate. by split_and!.
Qed.

Lemma create_post_unknown_user_witness :
  (create_post sqlite_default
     (<[ "title" := PyStr "t" ]> (<[ "body" := PyStr "b" ]>
        {[ "user_id" := PyInt 9 ]})) 300 fresh_store).1 = Raise TypeError ∧
  (create_post sqlite_strict
     (<[ "title" := PyStr "t" ]> (<[ "body" := PyStr "b" ]>
        {[ "user_id" := PyInt 9 ]})) 300 fresh_store) =
    (Raise (IntegrityError "FOREIGN KEY constraint failed"), fresh_store).
Proof.
  assert (post_request
            (<[ "title" := PyStr "t" ]> (<[ "body" := PyStr "b" ]>
               {[ "user_id" := PyInt 9 ]})) "t" "b" 9) as Hreq
    by (split_and!; try reflexivity; by vm_compute).
  assert (9 ∉ u_id <$> users fresh_store) as Hnone
    by (apply (bool_decide_unpack _); by vm_compute).
  split.
  - destruct (create_post_unknown_user sqlite_default fresh_store _ "t" "b" 9 300
                Hreq Hnone) as [_ Hoff].
    destruct (Hoff eq_refl) as (-> & _). reflexivity.
  - destruct (create_post_unknown_user sqlite_strict fresh_store _ "t" "b" 9 300
                Hreq Hnone) as [Hon _].
    exact (Hon eq_refl).
Defined.

(** C8 as stated fails for a body text that is a lone surrogate: foreign
    keys are not enforced and the [user_id] is the id of no user, yet no
    post row is stored.  Binding the body raises [UnicodeEncodeError] before
    the INSERT runs. *)
Lemma surrogate_body_unknown_user_counterexample :
  let post_data : dict :=
    <[ "title" := PyStr "t" ]> (<[ "body" := PyStr lone_surrogate ]>
      {[ "user_id" := PyInt 9 ]}) in
  foreign_keys sqlite_default = false ∧
  (9 ∉ u_id <$> users fresh_store) ∧
  create_post sqlite_default post_data 300 fresh_store =
    (Raise UnicodeEncodeError, fresh_store) ∧
  posts (create_post sqlite_default post_data 300 fresh_store).2 =
    posts fresh_store.
Proof.
  intros post_data. split_and!; [done| |by vm_compute..].
  apply (bool_decide_unpack _). by vm_compute.
Qed.

(** C9.  No request handler writes the follows table: after any request,
    and so after any sequence of requests, the follow edges are those of
    before. *)
Theorem follows_unchanged_by_requests (cfg : sqlite_config) (db : database) :
  (∀ req now, follows (handle cfg req now db).2 = follows db) ∧
  (∀ reqs, follows (serve cfg reqs db) = follows db).
Proof.
  split; [intros; apply handle_follows|].
  intros reqs. revert db.
  induction reqs as [|[req now] reqs IH]; intros db; [done|].
  simpl. by rewrite IH, handle_follows.
Qed.

(** C10.  Whatever [IntegrityError] the [try] block of create-user raises,
    the handler answers HTTP 400 with detail "Username already exists".  A
    body with "username": null (and a role SQLite can bind) is such a case:
    the INSERT violates NOT NULL, not UNIQUE, and gets the same answer. *)
Theorem integrity_error_reported_as_duplicate (db : database)
    (user_data : dict) (now : timestamp) :
  (∀ msg conn',
     create_user_try user_data now (get_db db) = (Raise (IntegrityError msg), conn') →
     create_user user_data now db =
       (Raise (HTTPException 400 "Username already exists"), db)) ∧
  (user_data !! "username" = Some PyNone →
   (∃ role, bind_param 1 (dict_get user_data "role" (PyStr "user")) = Return role) →
     create_user_try user_data now (get_db db) =
       (Raise (IntegrityError "NOT NULL constraint failed: users.username"),
        get_db db) ∧
     create_user user_data now db =
       (Raise (HTTPException 400 "Username already exists"), db) ∧
     http_status (create_user user_data now db).1 = 400).
Proof.
  split.
  - intros msg conn'. apply create_user_try_integrity.
  - intros Hkey [role Hrole].
    destruct (create_user_rejected user_data now db PyNone SqlNull role _
                Hkey eq_refl Hrole (insert_user_null _ _ _)) as [Htry Hcreate].
    split_and!; [done..|]. by rewrite Hcreate.
Qed.

Lemma integrity_error_reported_as_duplicate_witness :
  create_user {[ "username" := PyNone ]} 200 fresh_store =
    (Raise (HTTPException 400 "Username already exists"), fresh_store) ∧
  "" ∉ u_username <$> users fresh_store.
Proof.
  destruct (integrity_error_reported_as_duplicate fresh_store
              {[ "username" := PyNone ]} 200) as [_ Hnull].
  destruct Hnull as (_ & Hcreate & _); [reflexivity|by eexists|].
  split; [exact Hcreate|]. apply (bool_decide_unpack _). by vm_compute.
Defined.


(** ** Further properties of the handlers *)

Section Counters.
Context (cfg : sqlite_config).
Implicit Types (db : database) (ids : list Z).

Lemma foldr_max_bounded seq ids :
  (∀ i, i ∈ ids → i ≤ seq) → foldr Z.max seq ids = seq.
Proof.
  induction ids as [|i ids IH]; intros Hle; simpl; [done|].
  rewrite IH by (intros j Hj; apply Hle; by right).
  pose proof (Hle i ltac:(by left)). lia.
Qed.

Lemma next_rowid_consecutive ids :
  consecutive_from_one ids →
  next_rowid (Z.of_nat (length ids)) ids = Z.of_nat (length ids) + 1.
Proof.
  intros Hids. unfold next_rowid. rewrite foldr_max_bounded; [done|].
  intros i Hi. rewrite Hids in Hi. apply elem_of_seqZ in Hi. lia.
Qed.

Lemma consecutive_snoc ids :
  consecutive_from_one ids →
  consecutive_from_one (ids ++ [Z.of_nat (length ids) + 1]).
Proof.
  unfold consecutive_from_one. intros Hids.
  rewrite length_app, Nat.add_1_r, seqZ_S, <- Hids. simpl.
  by rewrite (Z.add_comm 1).
Qed.

Lemma ids_in_sequence_add_user db name role now :
  ids_in_sequence db →
  ids_in_sequence (add_user (new_user_row db name role now) db) ∧
  u_id (new_user_row db name role now) = Z.of_nat (length (users db)) + 1.
Proof.
  intros (Hu & Hsu & Hp & Hsp).
  assert (u_id (new_user_row db name role now) = Z.of_nat (length (users db)) + 1)
    as Hid.
  { simpl. rewrite Hsu, <- (length_fmap u_id). by apply next_rowid_consecutive. }
  split; [|done]. unfold ids_in_sequence, add_user.
  cbn [users posts seq_users seq_posts].
  rewrite fmap_app, length_app. cbn [fmap list_fmap length]. rewrite Hid.
  split_and!; [|lia|done..].
  rewrite <- (length_fmap u_id (users db)). by apply consecutive_snoc.
Qed.

Lemma ids_in_sequence_add_post db t b uid now :
  ids_in_sequence db →
  ids_in_sequence (add_post (new_post_row db t b uid now) db).
Proof.
  intros (Hu & Hsu & Hp & Hsp).
  assert (p_id (new_post_row db t b uid now) = Z.of_nat (length (posts db)) + 1)
    as Hid.
  { simpl. rewrite Hsp, <- (length_fmap p_id). by apply next_rowid_consecutive. }
  unfold ids_in_sequence, add_post.
  cbn [users posts seq_users seq_posts].
  rewrite fmap_app, length_app. cbn [fmap list_fmap length]. rewrite Hid.
  split_and!; [done..| |lia].
  rewrite <- (length_fmap p_id (posts db)). by apply consecutive_snoc.
Qed.

Lemma handle_ids_in_sequence req now db :
  ids_in_sequence db → ids_in_sequence (handle cfg req now db).2.
Proof.
  intros Hseq.
  destruct (handle_store cfg req now db)
    as [->|[(name & role & Hfresh & ->)|(t & b & uid & ->)]]; [done| |].
  - by apply ids_in_sequence_add_user.
  - by apply ids_in_sequence_add_post.
Qed.

Lemma reachable_ids_in_sequence db : reachable cfg db → ids_in_sequence db.
Proof.
  induction 1 as [t1 t2 t3 db Hinit|req now db _ IH].
  - rewrite init_db_creates in Hinit. injection Hinit as <-. by repeat split.
  - by apply handle_ids_in_sequence.
Qed.
End Counters.

(** X1.  In every store the service can reach, the user ids are 1, 2, ..., n
    in table order and the posts' likewise, and each AUTOINCREMENT counter
    equals the number of rows: no id is skipped, reused or out of order,
    whatever requests failed on the way. *)
Theorem reachable_ids_consecutive (cfg : sqlite_config) (db : database) :
  reachable cfg db →
  u_id <$> users db = seqZ 1 (Z.of_nat (length (users db))) ∧
  seq_users db = Z.of_nat (length (users db)) ∧
  p_id <$> posts db = seqZ 1 (Z.of_nat (length (posts db))) ∧
  seq_posts db = Z.of_nat (length (posts db)).
Proof.
  intros Hreach.
  destruct (reachable_ids_in_sequence cfg db Hreach) as (Hu & Hsu & Hp & Hsp).
  unfold consecutive_from_one in Hu, Hp.
  rewrite length_fmap in Hu. rewrite length_fmap in Hp. done.
Qed.

Lemma reachable_ids_consecutive_witness :
  u_id <$> users (handle sqlite_default
                    (POST_users {[ "username" := PyStr "new_guy" ]}) 200
                    (handle sqlite_default
                       (POST_users {[ "username" := PyStr "juan_dev" ]}) 150
                       fresh_store).2).2 = [1; 2; 3; 4].
Proof.
  destruct (reachable_ids_consecutive sqlite_default
              (handle sqlite_default
                 (POST_users {[ "username" := PyStr "new_guy" ]}) 200
                 (handle sqlite_default
                    (POST_users {[ "username" := PyStr "juan_dev" ]}) 150
                    fresh_store).2).2) as (Hids & _).
  - do 2 apply reachable_step. by apply (reachable_init _ 100 100 100).
  - rewrite Hids. reflexivity.
Defined.

(** X2.  In a reachable store a successful create-user returns the id one
    above the number of user rows: requests that failed before it used up
    no id. *)
Theorem create_user_next_id (cfg : sqlite_config) (db db' : database)
    (user_data : dict) (now : timestamp) (user : user_row) :
  reachable cfg db →
  create_user user_data now db = (Return user, db') →
  u_id user = Z.of_nat (length (users db)) + 1 ∧
  length (users db') = S (length (users db)).
Proof.
  intros Hreach Hcreate.
  apply create_user_return in Hcreate as (name & role & _ & -> & ->).
  split.
  - by apply ids_in_sequence_add_user, (reachable_ids_in_sequence cfg).
  - simpl. rewrite length_app. simpl. lia.
Qed.

Lemma create_user_next_id_witness :
  ∃ user db',
    create_user {[ "username" := PyStr "new_guy" ]} 200
      (handle sqlite_default (POST_users {[ "username" := PyStr "juan_dev" ]})
         150 fresh_store).2 = (Return user, db') ∧
    u_id user = 4.
Proof.
  destruct (create_user {[ "username" := PyStr "new_guy" ]} 200
              (handle sqlite_default
                 (POST_users {[ "username" := PyStr "juan_dev" ]})
                 150 fresh_store).2)
    as [[user|e] db'] eqn:Hcreate; [|by vm_compute in Hcreate].
  exists user, db'. split; [done|].
  destruct (create_user_next_id sqlite_default _ _ _ _ _
              (reachable_step sqlite_default
                 (POST_users {[ "username" := PyStr "juan_dev" ]}) 150 fresh_store
                 (reachable_init sqlite_default 100 100 100 fresh_store eq_refl))
              Hcreate) as [-> _].
  reflexivity.
Defined.

Section Outcomes.
Context (cfg : sqlite_config).
Implicit Types (db : database) (user_data post_data : dict).

Lemma bind_param_error index v e :
  bind_param index v = Raise e → binding_error e ∧ e ≠ TypeError.
Proof.
  unfold binding_error.
  destruct v; simpl; try case_bool_decide; try destruct (has_lone_surrogate _);
    intros; simplify_eq; split; eauto.
Qed.

Lemma create_user_outcomes user_data now db :
  (∃ user,
     create_user user_data now db = (Return user, add_user user db) ∧
     user = new_user_row db (u_username user) (u_role user) now ∧
     (u_username user ∉ u_username <$> users db)) ∨
  (∃ e, create_user user_data now db = (Raise e, db) ∧ create_user_error e).
Proof.
  unfold create_user_error.
  destruct (user_data !! "username") as [v|] eqn:Hkey.
  2:{ right. eexists. split; [by apply create_user_missing|]. by left. }
  destruct (bind_param 0 v) as [su|e] eqn:Hu.
  2:{ right. exists e. split.
      - unfold create_user, finish, try_except_IntegrityError,
          create_user_try, bind, lift, getitem, execute_insert_user.
        rewrite Hkey, Hu. simpl. by rewrite (bind_param_raise _ _ _ Hu).
      - apply bind_param_error in Hu as [Hu' _]. by right; left. }
  destruct (bind_param 1 (dict_get user_data "role" (PyStr "user")))
    as [sr|e] eqn:Hr.
  2:{ right. exists e. split.
      - unfold create_user, finish, try_except_IntegrityError,
          create_user_try, bind, lift, getitem, execute_insert_user.
        rewrite Hkey, Hu, Hr. simpl. by rewrite (bind_param_raise _ _ _ Hr).
      - apply bind_param_error in Hr as [Hr' _]. by right; left. }
  destruct (text_affinity su) as [name|] eqn:Hname.
  - destruct (decide (name ∈ u_username <$> users db)) as [Hin|Hfresh].
    + right. eexists. split; [by eapply create_user_taken|]. by do 2 right.
    + left. exists (new_user_row db name (text_affinity sr) now).
      split_and!; [by eapply create_user_fresh|done..].
  - right. destruct su; try discriminate. eexists. split; [|by do 2 right].
    by destruct (create_user_rejected user_data now db v SqlNull sr _ Hkey Hu Hr
                   (insert_user_null _ _ _)) as [_ ->].
Qed.
End Outcomes.

(** X3.  Create-user is all or nothing.  Either it returns the row it has
    committed, stamped with the clock reading and under a username no row
    had, or it raises and the store is exactly as before.  An
    [IntegrityError] never leaves the handler, and a failure is answered 400
    or 500. *)
Theorem create_user_all_or_nothing (db : database) (user_data : dict)
    (now : timestamp) :
  (∃ user,
     create_user user_data now db = (Return user, add_user user db) ∧
     u_created_at user = now ∧
     (u_username user ∉ u_username <$> users db) ∧
     (u_id user ∉ u_id <$> users db)) ∨
  (∃ e,
     create_user user_data now db = (Raise e, db) ∧
     (∀ msg, e ≠ IntegrityError msg) ∧
     (http_status (create_user user_data now db).1 = 400 ∨
      http_status (create_user user_data now db).1 = 500)).
Proof.
  destruct (create_user_outcomes user_data now db)
    as [(user & Hcreate & Hrow & Hfresh)|(e & Hcreate & He)].
  - left. exists user. split_and!; [done| |done|].
    + by rewrite Hrow.
    + rewrite Hrow. apply next_rowid_fresh.
  - right. exists e. rewrite Hcreate. split_and!; [done| |].
    + intros msg ->.
      destruct He as [? | [[? | [? | [i ?]]] | ?]]; discriminate.
    + destruct He as [-> | [[-> | [-> | [i ->]]] | ->]]; simpl; auto.
Qed.

(** X13.  The exceptions that leave create-user, when the database file
    itself does not fail: [KeyError] for "username"; an error of binding the
    username or the role, which is [OverflowError] for an integer beyond 64
    bits, [UnicodeEncodeError] for a [str] with a lone surrogate, or the
    [sqlite3] error for a list or an object; and the 400 "Username already
    exists". *)
Theorem create_user_exceptions (db db' : database) (user_data : dict)
    (now : timestamp) (e : exn) :
  create_user user_data now db = (Raise e, db') →
  e = KeyError "username" ∨
  e = OverflowError ∨ e = UnicodeEncodeError ∨ (∃ i, e = BindingError i) ∨
  e = HTTPException 400 "Username already exists".
Proof.
  intros Hraise.
  destruct (create_user_outcomes user_data now db)
    as [(user & Hcreate & _)|(e' & Hcreate & He)];
    rewrite Hcreate in Hraise; [done|].
  injection Hraise as <- <-.
  destruct He as [-> | [[-> | [-> | [i ->]]] | ->]]; eauto 6.
Qed.

Lemma create_user_exceptions_witness :
  UnicodeEncodeError = KeyError "username" ∨
  UnicodeEncodeError = OverflowError ∨
  UnicodeEncodeError = UnicodeEncodeError ∨
  (∃ i, UnicodeEncodeError = BindingError i) ∨
  UnicodeEncodeError = HTTPException 400 "Username already exists".
Proof.
  apply (create_user_exceptions fresh_store fresh_store
           {[ "username" := PyStr lone_surrogate ]} 200).
  by vm_compute.
Defined.

Section PostOutcomes.
Context (cfg : sqlite_config).
Implicit Types (db : database) (post_data : dict).

Lemma insert_post_cases title body user_id now conn :
  (∃ msg,
     insert_post cfg title body user_id now conn =
       (Raise (IntegrityError msg), conn)) ∨
  (∃ t b uid,
     insert_post cfg title body user_id now conn =
       (Return (p_id (new_post_row (txn conn) t b uid now)),
        {| disk := disk conn;
           txn := add_post (new_post_row (txn conn) t b uid now) (txn conn) |}) ∧
     (foreign_keys cfg = true → uid ∈ SqlInt <$> (u_id <$> users (txn conn)))).
Proof.
  unfold insert_post, bind, read, write, ret, raise; simpl.
  destruct (text_affinity title) as [t|]; [|left; eauto].
  destruct (text_affinity body) as [b|]; [|left; eauto].
  destruct (integer_affinity cfg user_id) as [|n|s] eqn:Huid; [left; eauto|..].
  - destruct (foreign_keys cfg) eqn:Hfk; simpl.
    + case_bool_decide as Hin; simpl; [|left; eauto].
      right. exists t, b, (SqlInt n). by split.
    + right. exists t, b, (SqlInt n). by split.
  - destruct (foreign_keys cfg) eqn:Hfk; simpl.
    + case_bool_decide as Hin; simpl; [|left; eauto].
      right. exists t, b, (SqlText s). by split.
    + right. exists t, b, (SqlText s). by split.
Qed.

Lemma owners_of_referenced db row :
  p_user_id row ∈ SqlInt <$> (u_id <$> users db) → owners db row ≠ [].
Proof.
  intros Hin Hnil.
  apply list_elem_of_fmap in Hin as (i & Huid & Hi).
  apply list_elem_of_fmap in Hi as (u & -> & Hu).
  assert (u ∈ owners db row) as Hown by by apply list_elem_of_filter.
  rewrite Hnil in Hown. by apply elem_of_nil in Hown.
Qed.

Lemma create_post_outcomes post_data now db :
  (∃ t b u,
     u ∈ users db ∧
     create_post cfg post_data now db =
       (Return (flatten (new_post_row db t b (SqlInt (u_id u)) now) u),
        add_post (new_post_row db t b (SqlInt (u_id u)) now) db)) ∨
  (∃ e,
     create_post cfg post_data now db = (Raise e, db) ∧
     create_post_error e ∧ e ≠ TypeError) ∨
  (∃ t b uid,
     foreign_keys cfg = false ∧
     owners db (new_post_row db t b uid now) = [] ∧
     create_post cfg post_data now db =
       (Raise TypeError, add_post (new_post_row db t b uid now) db)).
Proof.
  unfold create_post_error, create_post, finish, bind, lift, getitem.
  destruct (post_data !! "title") as [title|].
  2:{ right; left. eexists. split_and!; [done| |done].
      left. eexists. split; [done|]. repeat constructor. }
  destruct (post_data !! "body") as [body|].
  2:{ right; left. eexists. split_and!; [done| |done].
      left. eexists. split; [done|]. repeat constructor. }
  destruct (post_data !! "user_id") as [user_id|].
  2:{ right; left. eexists. split_and!; [done| |done].
      left. eexists. split; [done|]. repeat constructor. }
  unfold execute_insert_post, bind, lift.
  destruct (bind_param 0 title) as [st|e] eqn:Ht.
  2:{ right; left. exists e.
      apply bind_param_error in Ht as [Ht' ?]. split_and!; [done| |done].
      by right; left. }
  destruct (bind_param 1 body) as [sb|e] eqn:Hb.
  2:{ right; left. exists e.
      apply bind_param_error in Hb as [Hb' ?]. split_and!; [done| |done].
      by right; left. }
  destruct (bind_param 2 user_id) as [su|e] eqn:Hu.
  2:{ right; left. exists e.
      apply bind_param_error in Hu as [Hu' ?]. split_and!; [done| |done].
      by right; left. }
  destruct (insert_post_cases st sb su now (get_db db))
    as [[msg ->]|(t & b & uid & -> & Hfk)].
  { right; left. eexists. split_and!; [done| |done]. right; right; left. eauto. }
  unfold commit, read, dict_of_row, close, ret; simpl.
  change (next_rowid (seq_posts db) (p_id <$> posts db))
    with (p_id (new_post_row db t b uid now)).
  rewrite select_post_by_id_added by apply next_rowid_fresh.
  destruct (owners db (new_post_row db t b uid now)) as [|u us] eqn:Howners; simpl.
  - right; right. exists t, b, uid. split_and!; [|done..].
    destruct (foreign_keys cfg); [|done].
    by destruct (owners_of_referenced db (new_post_row db t b uid now) (Hfk eq_refl)).
  - left.
    assert (u ∈ owners db (new_post_row db t b uid now)) as Hown
      by (rewrite Howners; left).
    apply list_elem_of_filter in Hown as [Huid Hin]. simpl in Huid. subst uid.
    by exists t, b, u.
Qed.
End PostOutcomes.

(** X4.  Create-post never answers 400: it returns the committed row
    joined with a user of the store, or it raises and the answer is a 500.  It leaves the store
    as it was whenever it raises, except in one case: foreign keys are not
    enforced, the new row's [user_id] is the id of no user, and the row
    stays committed behind the [TypeError].  With foreign keys enforced it is
    all or nothing. *)
Theorem create_post_outcome (cfg : sqlite_config) (db : database)
    (post_data : dict) (now : timestamp) :
  (∃ p u,
     create_post cfg post_data now db = (Return (flatten p u), add_post p db) ∧
     u ∈ users db ∧ p_user_id p = SqlInt (u_id u) ∧ p_created_at p = now ∧
     (p_id p ∉ p_id <$> posts db)) ∨
  (∃ e db',
     create_post cfg post_data now db = (Raise e, db') ∧
     http_status (create_post cfg post_data now db).1 = 500 ∧
     (db' = db ∨
      (e = TypeError ∧ foreign_keys cfg = false ∧
       ∃ p, db' = add_post p db ∧
            ∀ u, u ∈ users db → p_user_id p ≠ SqlInt (u_id u)))).
Proof.
  destruct (create_post_outcomes cfg post_data now db)
    as [(t & b & u & Hu & Hcreate)|[(e & Hcreate & He & Hne)
       |(t & b & uid & Hfk & Howners & Hcreate)]].
  - left. eexists _, u. split_and!; [exact Hcreate|done..|apply next_rowid_fresh].
  - right. exists e, db. rewrite Hcreate. split_and!; [done| |by left].
    unfold create_post_error in He.
    destruct He
      as [(k & -> & _) | [[-> | [-> | [i ->]]] | [[msg ->] | ->]]]; done.
  - right. exists TypeError, (add_post (new_post_row db t b uid now) db).
    rewrite Hcreate. split_and!; [done..|].
    right. split_and!; [done..|]. eexists. split; [done|].
    intros u Hu Huid.
    assert (u ∈ owners db (new_post_row db t b uid now)) as Hown
      by by apply list_elem_of_filter.
    rewrite Howners in Hown. by apply elem_of_nil in Hown.
Qed.

(** X14.  The exceptions that leave create-post, when the database file
    itself does not fail: [KeyError] for "title", "body" or "user_id"; an
    error of binding one of the three values ([OverflowError],
    [UnicodeEncodeError] or the [sqlite3] error for a list or an object);
    [IntegrityError] for a violated constraint; and the [TypeError] of the
    re-read that found no row. *)
Theorem create_post_exceptions (cfg : sqlite_config) (db db' : database)
    (post_data : dict) (now : timestamp) (e : exn) :
  create_post cfg post_data now db = (Raise e, db') →
  (∃ key, e = KeyError key ∧ key ∈ ["title"; "body"; "user_id"]) ∨
  e = OverflowError ∨ e = UnicodeEncodeError ∨ (∃ i, e = BindingError i) ∨
  (∃ msg, e = IntegrityError msg) ∨ e = TypeError.
Proof.
  intros Hraise.
  destruct (create_post_outcomes cfg post_data now db)
    as [(t & b & u & Hu & Hcreate)|[(e' & Hcreate & He & _)
       |(t & b & uid & _ & _ & Hcreate)]];
    rewrite Hcreate in Hraise; [done| |].
  - injection Hraise as <- <-.
    destruct He
      as [(k & -> & Hk) | [[-> | [-> | [i ->]]] | [[msg ->] | ->]]]; eauto 8.
  - injection Hraise as <- <-. by do 5 right.
Qed.

Lemma create_post_exceptions_witness :
  (∃ key, KeyError "body" = KeyError key ∧ key ∈ ["title"; "body"; "user_id"]) ∨
  KeyError "body" = OverflowError ∨ KeyError "body" = UnicodeEncodeError ∨
  (∃ i, KeyError "body" = BindingError i) ∨
  (∃ msg, KeyError "body" = IntegrityError msg) ∨ KeyError "body" = TypeError.
Proof.
  apply (create_post_exceptions sqlite_default fresh_store fresh_store
           {[ "title" := PyStr "t" ]} 300).
  by vm_compute.
Defined.

(** X5.  A create-post body that has all three keys, with values SQLite
    can bind, but null for one of them, violates NOT NULL.  Unlike
    create-user, create-post has no [except] clause: the [IntegrityError]
    leaves the handler, the answer is a 500, and nothing is written. *)
Theorem create_post_null_field (cfg : sqlite_config) (db : database)
    (post_data : dict) (now : timestamp) (title body user_id : pyval)
    (st sb su : sqlval) :
  post_data !! "title" = Some title →
  post_data !! "body" = Some body →
  post_data !! "user_id" = Some user_id →
  bind_param 0 title = Return st →
  bind_param 1 body = Return sb →
  bind_param 2 user_id = Return su →
  title = PyNone ∨ body = PyNone ∨ user_id = PyNone →
  ∃ column,
    create_post cfg post_data now db =
      (Raise (IntegrityError ("NOT NULL constraint failed: posts." +:+ column)), db) ∧
    column ∈ ["title"; "body"; "user_id"] ∧
    http_status (create_post cfg post_data now db).1 = 500.
Proof.
  intros Ht Hb Hu Hst Hsb Hsu Hnull.
  assert (st = SqlNull ∨ sb = SqlNull ∨ su = SqlNull) as Hsql.
  { destruct Hnull as [-> | [-> | ->]]; simpl in *; simplify_eq; auto. }
  unfold create_post, finish, bind, lift, getitem.
  rewrite Ht, Hb, Hu.
  rewrite (execute_insert_post_bound cfg _ _ _ _ st sb su) by done.
  unfold insert_post, bind, read, raise; simpl.
  destruct (text_affinity st) as [t|] eqn:Htext.
  2:{ exists "title". split_and!; [done|repeat constructor|done]. }
  destruct (text_affinity sb) as [b|] eqn:Hbody.
  2:{ exists "body". split_and!; [done|repeat constructor|done]. }
  destruct Hsql as [-> | [-> | ->]]; try discriminate.
  exists "user_id". split_and!; [done|repeat constructor|done].
Qed.

Lemma create_post_null_field_witness :
  create_post sqlite_default
    (<[ "title" := PyNone ]> (<[ "body" := PyStr "b" ]>
       {[ "user_id" := PyInt 1 ]})) 300 fresh_store =
    (Raise (IntegrityError "NOT NULL constraint failed: posts.title"), fresh_store).
Proof.
  destruct (create_post_null_field sqlite_default fresh_store
              (<[ "title" := PyNone ]> (<[ "body" := PyStr "b" ]>
                 {[ "user_id" := PyInt 1 ]})) 300
              PyNone (PyStr "b") (PyInt 1) SqlNull (SqlText "b") (SqlInt 1))
    as (column & Hcreate & _);
    [reflexivity|reflexivity|reflexivity|reflexivity|reflexivity
    |by vm_compute|by left|].
  rewrite Hcreate. by vm_compute in Hcreate.
Defined.

(** X6.  A create-user body with "role": null does not get the default: the
    key is there, so [get] returns [None], the INSERT names the column, and
    the row is stored and returned with a NULL role.  (The username is an
    unused string that UTF-8 can encode.) *)
Theorem create_user_null_role (db : database) (user_data : dict)
    (name : string) (now : timestamp) :
  user_data !! "username" = Some (PyStr name) →
  utf8_text name →
  user_data !! "role" = Some PyNone →
  name ∉ u_username <$> users db →
  ∃ user,
    create_user user_data now db = (Return user, add_user user db) ∧
    u_username user = name ∧ u_role user = None.
Proof.
  intros Hname Htext Hrole Hfresh.
  exists (new_user_row db name None now). split; [|done].
  apply (create_user_fresh _ _ _ (PyStr name) (SqlText name) SqlNull); try done.
  - by apply bind_param_text.
  - unfold dict_get. by rewrite Hrole.
Qed.

Lemma create_user_null_role_witness :
  ∃ user,
    (create_user (<[ "username" := PyStr "new_guy" ]> {[ "role" := PyNone ]})
       200 fresh_store).1 = Return user ∧
    u_role user = None.
Proof.
  destruct (create_user_null_role fresh_store
              (<[ "username" := PyStr "new_guy" ]> {[ "role" := PyNone ]})
              "new_guy" 200) as (user & Hcreate & _ & Hrole).
  - reflexivity.
  - reflexivity.
  - reflexivity.
  - apply (bool_decide_unpack _). by vm_compute.
  - exists user. by rewrite Hcreate.
Defined.

(** X7.  The service never updates or deletes a row.  After any sequence
    of requests the users and posts tables are the old tables with rows
    appended, at most one row for each request served. *)
Theorem serve_only_appends (cfg : sqlite_config)
    (reqs : list (request * timestamp)) (db : database) :
  ∃ new_users new_posts,
    users (serve cfg reqs db) = (users db ++ new_users)%list ∧
    posts (serve cfg reqs db) = (posts db ++ new_posts)%list ∧
    (length new_users + length new_posts ≤ length reqs)%nat.
Proof.
  revert db. induction reqs as [|[req now] reqs IH]; intros db.
  - exists [], []. simpl. by rewrite !app_nil_r.
  - simpl. destruct (IH (handle cfg req now db).2) as (us & ps & -> & -> & Hlen).
    destruct (handle_store cfg req now db)
      as [->|[(name & role & Hfresh & ->)|(t & b & uid & ->)]]; simpl.
    + exists us, ps. split_and!; [done..|lia].
    + eexists (_ :: us), ps. rewrite <- app_assoc. split_and!; [done..|simpl; lia].
    + eexists us, (_ :: ps). rewrite <- app_assoc. split_and!; [done..|simpl; lia].
Qed.

Section Joins.
Context (cfg : sqlite_config).
Implicit Types (db : database) (p : post_row).

Lemma owners_at_most_one db p :
  NoDup (u_id <$> users db) →
  owners db p = [] ∨
  ∃ u, owners db p = [u] ∧ u ∈ users db ∧ p_user_id p = SqlInt (u_id u).
Proof.
  intros Hnodup.
  destruct (owners db p) as [|u us] eqn:Howners; [by left|right].
  assert (u ∈ owners db p) as Hown by (rewrite Howners; left).
  apply list_elem_of_filter in Hown as [Huid Hu].
  exists u. rewrite <- Howners. split_and!; [|done..].
  by apply owners_unique.
Qed.

Lemma join_ids_sublist db (ps : list post_row) :
  NoDup (u_id <$> users db) →
  pv_id <$> (ps ≫= λ p, flatten p <$> owners db p) `sublist_of` p_id <$> ps.
Proof.
  intros Hnodup. induction ps as [|p ps IH]; [done|].
  rewrite bind_cons, fmap_app, fmap_cons.
  destruct (owners_at_most_one db p Hnodup) as [->|(u & -> & _)]; simpl.
  - by apply sublist_cons.
  - by apply sublist_skip.
Qed.

Lemma join_ids_owned db (ps : list post_row) :
  NoDup (u_id <$> users db) →
  Forall (λ p, ∃ u, u ∈ users db ∧ p_user_id p = SqlInt (u_id u)) ps →
  pv_id <$> (ps ≫= λ p, flatten p <$> owners db p) = p_id <$> ps.
Proof.
  intros Hnodup. induction 1 as [|p ps (u & Hu & Huid) _ IH]; [done|].
  rewrite bind_cons, fmap_app, fmap_cons, IH.
  by rewrite (owners_unique db p u).
Qed.

Lemma posts_have_owners_add_user db row :
  posts_have_owners db → posts_have_owners (add_user row db).
Proof.
  unfold posts_have_owners. simpl. intros Hall.
  eapply Forall_impl; [exact Hall|]. simpl.
  intros p (u & Hu & Huid). exists u. split; [|done].
  apply elem_of_app. by left.
Qed.

Lemma posts_have_owners_add_post db p u :
  u ∈ users db → p_user_id p = SqlInt (u_id u) →
  posts_have_owners db → posts_have_owners (add_post p db).
Proof.
  unfold posts_have_owners. simpl. intros Hu Huid Hall.
  apply Forall_app. split; [done|]. constructor; [by exists u|constructor].
Qed.

Lemma handle_posts_have_owners req now db :
  foreign_keys cfg = true →
  posts_have_owners db → posts_have_owners (handle cfg req now db).2.
Proof.
  intros Hfk Hall.
  destruct req as [|user_data| |post_data|]; unfold handle;
    rewrite reply_with_store; try done.
  - destruct (create_user_store user_data now db) as [->|(n & r & _ & ->)];
      [done|by apply posts_have_owners_add_user].
  - destruct (create_post_outcomes cfg post_data now db)
      as [(t & b & u & Hu & ->)|[(e & -> & _)|(t & b & uid & Hoff & _)]];
      [|done|congruence].
    by apply (posts_have_owners_add_post _ _ u).
Qed.

Lemma reachable_posts_have_owners db :
  foreign_keys cfg = true → reachable cfg db → posts_have_owners db.
Proof.
  intros Hfk. induction 1 as [t1 t2 t3 db Hinit|req now db _ IH].
  - rewrite init_db_creates in Hinit. injection Hinit as <-.
    unfold posts_have_owners. simpl.
    repeat constructor.
    + eexists {| u_id := 1 |}. split; [left|done].
    + eexists {| u_id := 2 |}. split; [right; left|done].
    + eexists {| u_id := 3 |}. split; [do 2 right; left|done].
  - by apply handle_posts_have_owners.
Qed.
End Joins.

(** X8.  With foreign keys enforced, referential integrity is an invariant
    of the service: in every reachable store each post's [user_id] is the id
    of a user row, and list-posts returns every post, each exactly once. *)
Theorem enforced_foreign_keys_keep_posts_listed (cfg : sqlite_config)
    (db : database) :
  foreign_keys cfg = true →
  reachable cfg db →
  Forall (λ p, ∃ u, u ∈ users db ∧ p_user_id p = SqlInt (u_id u)) (posts db) ∧
  ∃ listing,
    get_posts db = (Return listing, db) ∧
    pv_id <$> listing ≡ₚ p_id <$> posts db ∧
    length listing = length (posts db).
Proof.
  intros Hfk Hreach.
  pose proof (reachable_posts_have_owners cfg db Hfk Hreach) as Hown.
  pose proof (ok_user_ids _ (reachable_ok cfg db Hreach)) as Hnodup.
  split; [done|]. exists (select_posts db).
  assert (pv_id <$> select_posts db ≡ₚ p_id <$> posts db) as Hperm.
  { unfold select_posts. rewrite order_by_desc_perm.
    unfold posts_join_users. by rewrite join_ids_owned. }
  split_and!; [done..|].
  apply Permutation_length in Hperm. by rewrite !length_fmap in Hperm.
Qed.

Lemma enforced_foreign_keys_keep_posts_listed_witness :
  ∃ listing,
    get_posts fresh_store = (Return listing, fresh_store) ∧
    length listing = 3%nat.
Proof.
  destruct (enforced_foreign_keys_keep_posts_listed sqlite_strict fresh_store)
    as (_ & listing & Hget & _ & Hlen).
  - reflexivity.
  - by apply (reachable_init _ 100 100 100).
  - by exists listing.
Defined.

(** X9.  Whether or not foreign keys are enforced, list-posts lists no post
    twice, as long as user ids are unique (they are in every reachable
    store): the listed post ids are distinct ids of the posts table. *)
Theorem list_posts_without_duplicates (db : database) :
  store_ok db →
  ∃ listing,
    get_posts db = (Return listing, db) ∧
    NoDup (pv_id <$> listing) ∧
    (∀ view, view ∈ listing → pv_id view ∈ p_id <$> posts db) ∧
    (length listing ≤ length (posts db))%nat.
Proof.
  intros Hok. exists (select_posts db).
  pose proof (join_ids_sublist db (posts db) (ok_user_ids _ Hok)) as Hsub.
  fold (posts_join_users db) in Hsub.
  assert (pv_id <$> select_posts db ≡ₚ pv_id <$> posts_join_users db) as Hperm.
  { unfold select_posts. by rewrite order_by_desc_perm. }
  split_and!; [done| | |].
  - rewrite Hperm. eapply sublist_NoDup; [apply (ok_post_ids _ Hok)|done].
  - intros view Hview. apply posts_join_users_ids.
    by apply order_by_desc_elem_of in Hview.
  - apply Permutation_length in Hperm. apply sublist_length in Hsub.
    rewrite !length_fmap in Hperm. rewrite !length_fmap in Hsub.
    unfold posts_join_users in *. lia.
Qed.

Lemma list_posts_without_duplicates_witness :
  ∃ listing,
    get_posts fresh_store = (Return listing, fresh_store) ∧
    NoDup (pv_id <$> listing).
Proof.
  destruct (list_posts_without_duplicates fresh_store)
    as (listing & Hget & Hnodup & _).
  - store_ok_by_evaluation.
  - by exists listing.
Defined.

Lemma order_by_desc_snoc_newest {A} (key : A → Z) (rows : list A) (x : A) :
  (∀ r, r ∈ rows → key r < key x) →
  order_by_desc key (rows ++ [x]) = x :: order_by_desc key rows.
Proof.
  induction rows as [|r rows IH]; intros Hnew; [done|].
  simpl. rewrite IH by (intros r' Hr'; apply Hnew; by right). simpl.
  rewrite bool_decide_eq_true_2; [done|]. apply Hnew. by left.
Qed.

(** X10.  Newest first: when create-user succeeds at a clock reading later
    than the [created_at] of every user row, list-users then returns the new
    record at the head, followed by the listing as it was before. *)
Theorem created_user_listed_first (db db' : database) (user_data : dict)
    (now : timestamp) (user : user_row) :
  create_user user_data now db = (Return user, db') →
  (∀ u, u ∈ users db → u_created_at u < now) →
  ∃ before,
    get_users db = (Return before, db) ∧
    get_users db' = (Return (user :: before), db').
Proof.
  intros Hcreate Hnew.
  apply create_user_return in Hcreate as (name & role & _ & -> & ->).
  exists (select_users db). split; [done|].
  rewrite get_users_eq. do 2 f_equal. unfold select_users. simpl.
  by apply order_by_desc_snoc_newest.
Qed.

Lemma created_user_listed_first_witness :
  ∃ user db',
    create_user {[ "username" := PyStr "new_guy" ]} 200 fresh_store =
      (Return user, db') ∧
    get_users db' = (Return (user :: seed_users 100), db').
Proof.
  destruct (create_user {[ "username" := PyStr "new_guy" ]} 200 fresh_store)
    as [[user|e] db'] eqn:Hcreate; [|by vm_compute in Hcreate].
  destruct (created_user_listed_first fresh_store db' _ 200 user Hcreate)
    as (before & Hbefore & Hafter).
  - intros u Hu. simpl in Hu.
    repeat (apply elem_of_cons in Hu as [->|Hu]; [simpl; lia|]).
    by apply elem_of_nil in Hu.
  - exists user, db'. split; [done|].
    rewrite get_users_eq in Hbefore. injection Hbefore as <-. exact Hafter.
Defined.

(** X11.  Newest first for posts: when create-post succeeds at a clock
    reading later than the [created_at] of every post row, in a store with
    unique user ids, list-posts then returns the new record at the head,
    followed by the listing as it was before. *)
Theorem created_post_listed_first (cfg : sqlite_config) (db db' : database)
    (post_data : dict) (now : timestamp) (view : post_view) :
  store_ok db →
  create_post cfg post_data now db = (Return view, db') →
  (∀ p, p ∈ posts db → p_created_at p < now) →
  ∃ before,
    get_posts db = (Return before, db) ∧
    get_posts db' = (Return (view :: before), db').
Proof.
  intros Hok Hcreate Hnew.
  apply create_post_return in Hcreate as (t & b & u & Hu & -> & ->).
  exists (select_posts db). split; [done|].
  rewrite get_posts_eq. do 2 f_equal. unfold select_posts.
  rewrite posts_join_users_add_post.
  rewrite (owners_unique db _ u) by (done || apply Hok). simpl.
  apply order_by_desc_snoc_newest.
  intros v Hv. apply posts_join_users_spec in Hv as (p & u' & Hp & _ & _ & ->).
  simpl. by apply Hnew.
Qed.

Lemma created_post_listed_first_witness :
  ∃ view before db',
    create_post sqlite_default
      (<[ "title" := PyStr "t" ]> (<[ "body" := PyStr "b" ]>
         {[ "user_id" := PyInt 2 ]})) 300 fresh_store = (Return view, db') ∧
    get_posts fresh_store = (Return before, fresh_store) ∧
    get_posts db' = (Return (view :: before), db').
Proof.
  destruct (create_post sqlite_default
              (<[ "title" := PyStr "t" ]> (<[ "body" := PyStr "b" ]>
                 {[ "user_id" := PyInt 2 ]})) 300 fresh_store)
    as [[view|e] db'] eqn:Hcreate; [|by vm_compute in Hcreate].
  assert (store_ok fresh_store) as Hok by store_ok_by_evaluation.
  destruct (created_post_listed_first sqlite_default fresh_store db' _ 300 view
              Hok Hcreate) as (before & Hbefore & Hafter).
  - intros p Hp. simpl in Hp.
    repeat (apply elem_of_cons in Hp as [->|Hp]; [simpl; lia|]).
    by apply elem_of_nil in Hp.
  - by exists view, before, db'.
Defined.

Lemma serve_join_kept (cfg : sqlite_config) (reqs : list (request * timestamp))
    (db : database) (view : post_view) :
  view ∈ posts_join_users db → view ∈ posts_join_users (serve cfg reqs db).
Proof.
  revert db. induction reqs as [|[req now] reqs IH]; intros db Hview; [done|].
  simpl. by apply IH, handle_join_kept.
Qed.

(** X12.  Nothing is ever unlisted: a record that list-users or list-posts
    returns is returned again, unchanged, after any further requests. *)
Theorem listed_records_stay_listed (cfg : sqlite_config)
    (reqs : list (request * timestamp)) (db : database) :
  ∃ users_before posts_before users_after posts_after,
    get_users db = (Return users_before, db) ∧
    get_posts db = (Return posts_before, db) ∧
    get_users (serve cfg reqs db) = (Return users_after, serve cfg reqs db) ∧
    get_posts (serve cfg reqs db) = (Return posts_after, serve cfg reqs db) ∧
    (∀ user, user ∈ users_before → user ∈ users_after) ∧
    (∀ view, view ∈ posts_before → view ∈ posts_after).
Proof.
  exists (select_users db), (select_posts db),
    (select_users (serve cfg reqs db)), (select_posts (serve cfg reqs db)).
  split_and!; try done.
  - intros user. unfold select_users. rewrite !order_by_desc_elem_of.
    apply serve_users_kept.
  - intros view. unfold select_posts. rewrite !order_by_desc_elem_of.
    apply serve_join_kept.
Qed.
